(** * Request dispatch of the observer proxy: a shallow embedding

    The development follows the Go sources of the proxy:
    - [Process]: the transaction processor of package [process]
      ([SendTransaction], [SendMultipleTransactions],
      [TransactionCostRequest], [GetTransactionStatus]) and its helpers;
    - [AddressApi]: the handler [GetValueForKey] of package [api/address];
    - [VmValues]: the vm-value handlers of package [api/vmValues];
    - [ProcessLaws], [ProcessTables], [ProcessRuns], [ProcessCoverage]:
      further properties of the transaction processor;
    - [Lookups]: [GetTransaction] and [GetAuctionList] of package [process];
    - [VmValuesLaws]: round trips of the vm-value handlers;
    - [AccountApi]: the account handlers of package [api/address].

    Three parts of the proxy are described by the specification and
    exercised by tests, while their code is not among the sources.  They
    are modelled from the specification, and say so:
    - [ScrMerge]: the merge of smart-contract results across shards;
    - [ResultsParser]: the parser of transaction outcomes;
    - [Mempool]: the views of the transaction pool.

    Go values are modelled as follows: [int], [uint32] and [uint64] are [Z]
    (wrap-around written out where the code computes), [string] is [string],
    [[]byte] is [list byte], [error] is [option Error] ([None] is [nil]), a Go
    [map] is a [gmap].  Calls to observers are effects: they run in the
    monad [Proc], which threads the state of the outside world and logs
    every exchange with an observer.  Each module states its definitions
    first and its theorems after them; the modules named [...Scenarios]
    run the definitions on the scenarios of the specification and of the
    tests. *)

From Stdlib Require Import ZArith List String Ascii Bool Lia.
From Stdlib.Strings Require Import Byte.
From stdpp Require Import base option list gmap strings pretty.

Local Open Scope string_scope.
Local Open Scope list_scope.
Local Open Scope Z_scope.

(** ** Go's [encoding/hex] *)

Module GoHex.

(** [hex.ErrLength] and [hex.InvalidByteError]. *)
Inductive HexError : Type :=
| ErrLength
| InvalidByteError (b : byte).

(** [fromHexChar]: the value of a hexadecimal digit. *)
Definition fromHexChar (c : byte) : option N :=
  let n := Byte.to_N c in
  if ((48 <=? n) && (n <=? 57))%N then Some (n - 48)%N
  else if ((97 <=? n) && (n <=? 102))%N then Some (n - 97 + 10)%N
  else if ((65 <=? n) && (n <=? 70))%N then Some (n - 65 + 10)%N
  else None.

Definition byteOfN (n : N) : byte :=
  match Byte.of_N n with Some b => b | None => x00 end.

(** [hex.Decode]: pairs are decoded from the left; the first byte that is no
    digit is reported; an odd length is reported only when every byte before
    the end is a digit. *)
Fixpoint Decode (src : list byte) : HexError + list byte :=
  match src with
  | [] => inr []
  | [p] =>
      match fromHexChar p with
      | None => inl (InvalidByteError p)
      | Some _ => inl ErrLength
      end
  | p :: q :: rest =>
      match fromHexChar p with
      | None => inl (InvalidByteError p)
      | Some a =>
          match fromHexChar q with
          | None => inl (InvalidByteError q)
          | Some b =>
              match Decode rest with
              | inl e => inl e
              | inr bs => inr (byteOfN (16 * a + b) :: bs)
              end
          end
      end
  end.

(** [hex.DecodeString]. *)
Definition DecodeString (s : string) : HexError + list byte :=
  Decode (list_byte_of_string s).

Definition hexDigit (n : N) : byte :=
  byteOfN (if (n <? 10)%N then 48 + n else 87 + n)%N.

(** [hex.EncodeToString]: lower-case digits. *)
Definition EncodeToString (src : list byte) : string :=
  string_of_list_byte
    (flat_map (fun b => [hexDigit (Byte.to_N b / 16); hexDigit (Byte.to_N b mod 16)]%N) src).

(** The text of [err.Error()].  The rendering of the offending byte ([%#U]
    of package [fmt]) is taken as a parameter. *)
Definition ErrorText (fmtU : byte -> string) (e : HexError) : string :=
  match e with
  | ErrLength => "encoding/hex: odd length hex string"
  | InvalidByteError b => "encoding/hex: invalid byte: " +:+ fmtU b
  end.

End GoHex.

(** ** Go's [encoding/base64] *)

Module GoBase64.

(** The value of a digit of the standard base64 alphabet. *)
Definition digit (c : byte) : option N :=
  let n := Byte.to_N c in
  if ((65 <=? n) && (n <=? 90))%N then Some (n - 65)%N
  else if ((97 <=? n) && (n <=? 122))%N then Some (n - 97 + 26)%N
  else if ((48 <=? n) && (n <=? 57))%N then Some (n - 48 + 52)%N
  else if (n =? 43)%N then Some 62%N
  else if (n =? 47)%N then Some 63%N
  else None.

Definition isPad (c : byte) : bool := (Byte.to_N c =? 61)%N.

Definition byte1 (a b : N) : byte := GoHex.byteOfN ((a * 4 + b / 16) mod 256).
Definition byte2 (b c : N) : byte := GoHex.byteOfN ((b * 16 + c / 4) mod 256).
Definition byte3 (c d : N) : byte := GoHex.byteOfN ((c * 64 + d) mod 256).

(** [base64.StdEncoding.Decode] on text without line breaks: quanta of four
    digits, the last one padded with [=]. *)
Fixpoint Decode (src : list byte) : option (list byte) :=
  match src with
  | [] => Some []
  | a :: b :: c :: d :: rest =>
      match digit a, digit b with
      | Some va, Some vb =>
          match rest with
          | [] =>
              if isPad d then
                if isPad c then Some [byte1 va vb]
                else match digit c with
                     | Some vc => Some [byte1 va vb; byte2 vb vc]
                     | None => None
                     end
              else match digit c, digit d with
                   | Some vc, Some vd => Some [byte1 va vb; byte2 vb vc; byte3 vc vd]
                   | _, _ => None
                   end
          | _ =>
              match digit c, digit d, Decode rest with
              | Some vc, Some vd, Some bs =>
                  Some (byte1 va vb :: byte2 vb vc :: byte3 vc vd :: bs)
              | _, _, _ => None
              end
          end
      | _, _ => None
      end
  | _ => None
  end.

End GoBase64.

(** ** Errors and HTTP statuses *)

(** The message of an [ErrInvalidTxFields]: which field was refused. *)
Inductive TxFieldsMessage : Type :=
| ErrInvalidSenderAddress
| ErrInvalidReceiverAddress
| ErrInvalidSignatureHex.

(** Go [error] values met by the processor.  [External] is an error made by
    an injected capability (address codec, shard router, observer pool, REST
    client), known by its text. *)
Inductive Error : Type :=
| External (msg : string)
| HexError (e : GoHex.HexError)
| ErrInvalidTxFields (Message : TxFieldsMessage) (Reason : Error)
| ErrSendingRequest
| ErrNoValidTransactionToSend
| ErrMissingObserver
| ErrCannotGetTransactionStatus
| ErrOperationNotAllowed
| ErrTransactionsNotFoundInPool
| ErrNonceGapsNotFoundInPool.

Definition isNil (e : option Error) : bool :=
  match e with None => true | Some _ => false end.

Definition StatusOK : Z := 200.
Definition StatusBadRequest : Z := 400.
Definition StatusNotFound : Z := 404.
Definition StatusRequestTimeout : Z := 408.
Definition StatusInternalServerError : Z := 500.

(** ** Wire data *)

(** Modelled from the spec: [data.Transaction] (the package [data] is not
    among the sources); the fields are those of section 3, "Transaction
    (wire form)", which the tests of the processor also set. *)
Record Transaction : Type := mkTransaction {
  Nonce : Z;
  Value : string;
  Receiver : string;
  Sender : string;
  GasPrice : Z;
  GasLimit : Z;
  Data : string;
  Signature : string;
  ChainID : string;
  Version : Z
}.

(** [data.NodeData]: an observer of the pool. *)
Record NodeData : Type := mkNodeData {
  Address : string;
  ShardId : Z
}.

(** Modelled from the spec: a transaction of the pool, "a free-form property
    map (string to value)" (section 3); a value is kept as its JSON text. *)
Definition WrappedTransaction : Type := list (string * string).

(** Modelled from the spec: the pool view of section 3, "three disjoint
    sequences". *)
Record TransactionsPool : Type := mkTransactionsPool {
  RegularTransactions : list WrappedTransaction;
  SmartContractResults : list WrappedTransaction;
  Rewards : list WrappedTransaction
}.

(** Modelled from the spec: a nonce gap, an inclusive range (section 3). *)
Record NonceGap : Type := mkNonceGap {
  From : Z;
  To : Z
}.

(** Modelled from the spec: the JSON reply of an observer, decoded into the
    shape the caller passes ([data.ResponseTransaction],
    [data.ResponseMultiTransactions], [data.ResponseTxCost],
    [data.ResponseTxStatus] and the shapes of the pool replies, none of them
    among the sources); the fields are the key fields of the table of
    section 6.  A field the reply does not carry has Go's zero value. *)
Record ResponseBody : Type := mkResponseBody {
  TxHash : string;
  NumOfTxs : Z;
  TxsHashes : list (Z * string);
  TxCost : Z;
  Status : string;
  PoolTransactions : TransactionsPool;
  SenderTransactions : list WrappedTransaction;
  LastNonce : Z;
  Gaps : list NonceGap
}.

Definition emptyPool : TransactionsPool := mkTransactionsPool [] [] [].

(** The reply to a request about a transaction. *)
Definition txBody (txHash : string) (numOfTxs : Z) (txsHashes : list (Z * string))
  (txCost : Z) (status : string) : ResponseBody :=
  mkResponseBody txHash numOfTxs txsHashes txCost status emptyPool [] 0 [].

Definition emptyBody : ResponseBody := txBody "" 0 [] 0 "".

(** What is posted to an observer. *)
Inductive PostValue : Type :=
| PostTx (tx : Transaction)
| PostTxs (txs : list Transaction).

(** One request made to an observer together with what came back.  [exValue]
    is [None] for a GET; [exCode] is [None] where the REST client reports no
    status code. *)
Record Exchange : Type := mkExchange {
  exAddress : string;
  exPath : string;
  exValue : option PostValue;
  exCode : option Z;
  exErr : option Error;
  exBody : ResponseBody
}.

(** ** The monad of the processor *)

Definition Proc (World A : Type) : Type := World -> A * World * list Exchange.

Definition ret {World A : Type} (a : A) : Proc World A :=
  fun w => (a, w, []).

Definition bind {World A B : Type} (m : Proc World A) (k : A -> Proc World B) : Proc World B :=
  fun w =>
    let '(a, w1, t1) := m w in
    let '(b, w2, t2) := k a w1 in
    (b, w2, t1 ++ t2).

Notation "'do' x <- m ; k" := (bind m (fun x => k))
  (at level 10, x name, m at level 100, k at level 200).
Notation "'do' ' p <- m ; k" := (bind m (fun x => match x with p => k end))
  (at level 10, p pattern, m at level 100, k at level 200).

Definition result {World A : Type} (r : A * World * list Exchange) : A := r.1.1.
Definition world {World A : Type} (r : A * World * list Exchange) : World := r.1.2.
Definition trace {World A : Type} (r : A * World * list Exchange) : list Exchange := r.2.

(** ** The transaction processor (package [process]) *)

Module Process.

Definition TransactionPath : string := "/transaction/".
Definition TransactionSendPath : string := "/transaction/send".
Definition MultipleTransactionsPath : string := "/transaction/send-multiple".
Definition TransactionCostPath : string := "/transaction/cost".
Definition UnknownStatusTx : string := "unknown".

(** [core.MetachainShardId]. *)
Definition MetachainShardId : Z := 4294967295.

(** Arithmetic on [uint64] wraps around. *)
Definition uint64 (z : Z) : Z := z mod 2 ^ 64.

(** The conversion [int(x)] of a [uint64] on a 64-bit platform. *)
Definition int_of_uint64 (z : Z) : Z :=
  if z <? 2 ^ 63 then z else z - 2 ^ 64.

(** *** Reading a log of exchanges *)

(** The observer accepted the request: HTTP 200 and no transport error. *)
Definition accepted (ex : Exchange) : Prop :=
  exCode ex = Some StatusOK /\ exErr ex = None.

(** The observer counts as unavailable: HTTP 404 or 408. *)
Definition skipped (ex : Exchange) : Prop :=
  exCode ex = Some StatusNotFound \/ exCode ex = Some StatusRequestTimeout.

Definition posted (path : string) (value : PostValue) (ex : Exchange) : Prop :=
  exPath ex = path /\ exValue ex = Some value.

(** The log [tr] holds the POSTs made from the state [w] on, and what the
    REST client [callPost] answered: every exchange carries the status, the
    error and the body the client gave for its address, path and value in
    the state the exchanges before it left; [w'] is the state after the
    last. *)
Fixpoint answeredBy {World : Type}
  (callPost : string -> string -> PostValue -> World -> Z * option Error * ResponseBody * World)
  (w : World) (tr : list Exchange) (w' : World) : Prop :=
  match tr with
  | [] => w' = w
  | ex :: rest =>
      exists value respCode w1,
        exValue ex = Some value /\ exCode ex = Some respCode /\
        callPost (exAddress ex) (exPath ex) value w = (respCode, exErr ex, exBody ex, w1) /\
        answeredBy callPost w1 rest w'
  end.

(** The same for a log of GETs, whose client gives no status code. *)
Fixpoint askedOf {World : Type}
  (callGet : string -> string -> World -> option Error * ResponseBody * World)
  (w : World) (tr : list Exchange) (w' : World) : Prop :=
  match tr with
  | [] => w' = w
  | ex :: rest =>
      exists w1,
        exValue ex = None /\ exCode ex = None /\
        callGet (exAddress ex) (exPath ex) w = (exErr ex, exBody ex, w1) /\
        askedOf callGet w1 rest w'
  end.

(** What a run [r] of the send loop over [observers] looks like: the
    observers contacted are a prefix of the list, in its order; every
    exchange but the last was skipped; the last one decides. *)
Definition decisionTable {World : Type} (tx : Transaction) (observers : list NodeData)
  (r : Z * string * option Error * World * list Exchange) : Prop :=
  exists contacted later,
    observers = contacted ++ later /\
    map exAddress (trace r) = map Address contacted /\
    Forall (posted TransactionSendPath (PostTx tx)) (trace r) /\
    ((later = [] /\ Forall skipped (trace r) /\
      result r = (StatusInternalServerError, "", Some ErrSendingRequest))
     \/
     (exists skips ex,
        trace r = skips ++ [ex] /\ Forall skipped skips /\
        ((accepted ex /\ result r = (StatusOK, TxHash (exBody ex), None))
         \/
         (~ accepted ex /\ ~ skipped ex /\
          exists respCode, exCode ex = Some respCode /\ result r = (respCode, "", exErr ex))))).

(** The statuses that came back in a run of [GetTransactionStatus] over
    [observers] with log [tr]: for every observer that answered, in order,
    its shard and the status it gave. *)
Fixpoint answers (observers : list NodeData) (tr : list Exchange) : list (Z * string) :=
  match observers, tr with
  | observer :: observers', ex :: tr' =>
      if isNil (exErr ex) then (ShardId observer, Status (exBody ex)) :: answers observers' tr'
      else answers observers' tr'
  | _, _ => []
  end.

Definition knownAnswers (observers : list NodeData) (tr : list Exchange) : list (Z * string) :=
  filter (fun p => p.2 <> UnknownStatusTx) (answers observers tr).

Definition ofShard (s : Z) (l : list (Z * string)) : list string :=
  (filter (fun p => p.1 = s) l).*2.

Definition nonEmpty {A : Type} (l : list A) : option (list A) :=
  match l with [] => None | _ => Some l end.

Section TransactionProcessor.

(** The injected capabilities of a [TransactionProcessor]: the address codec
    [tp.pubKeyConverter] and the core processor [tp.proc] (shard router,
    observer pool, REST client).  The observers are the outside world: what
    they answer depends on its state, which every call may change. *)
Variable World : Type.
Variable Decode : string -> Error + list byte.
Variable ComputeShardId : list byte -> Error + Z.
Variable GetObservers : Z -> Error + list NodeData.
Variable GetAllObservers : list NodeData.
Variable CallPostRestEndPoint :
  string -> string -> PostValue -> World -> Z * option Error * ResponseBody * World.
Variable CallGetRestEndPoint :
  string -> string -> World -> option Error * ResponseBody * World.

(** A [for ... range] over a Go map visits the entries in an order the
    language leaves open: any enumeration of the entries. *)
Variable rangeMap : gmap Z (list Transaction) -> list (Z * list Transaction).
Hypothesis rangeMap_perm : forall m, rangeMap m ≡ₚ map_to_list m.

Definition post (address path : string) (value : PostValue) :
  Proc World (Z * option Error * ResponseBody) :=
  fun w =>
    let '(respCode, err, body, w') := CallPostRestEndPoint address path value w in
    ((respCode, err, body), w', [mkExchange address path (Some value) (Some respCode) err body]).

Definition get (address path : string) : Proc World (option Error * ResponseBody) :=
  fun w =>
    let '(err, body, w') := CallGetRestEndPoint address path w in
    ((err, body), w', [mkExchange address path None None err body]).

Definition checkTransactionFields (tx : Transaction) : option Error :=
  match Decode tx.(Sender) with
  | inl err => Some (ErrInvalidTxFields ErrInvalidSenderAddress err)
  | inr _ =>
      match Decode tx.(Receiver) with
      | inl err => Some (ErrInvalidTxFields ErrInvalidReceiverAddress err)
      | inr _ =>
          match GoHex.DecodeString tx.(Signature) with
          | inl e => Some (ErrInvalidTxFields ErrInvalidSignatureHex (HexError e))
          | inr _ => None
          end
      end
  end.

(** The loop of [SendTransaction] over the observers of the sender's shard. *)
Fixpoint sendToObservers (tx : Transaction) (observers : list NodeData) :
  Proc World (Z * string * option Error) :=
  match observers with
  | [] => ret (StatusInternalServerError, "", Some ErrSendingRequest)
  | observer :: rest =>
      do r <- post observer.(Address) TransactionSendPath (PostTx tx);
      let '(respCode, err, txResponse) := r in
      if (respCode =? StatusOK) && isNil err then
        ret (respCode, txResponse.(TxHash), None)
      else if (respCode =? StatusNotFound) || (respCode =? StatusRequestTimeout) then
        sendToObservers tx rest
      else
        ret (respCode, "", err)
  end.

Definition SendTransaction (tx : Transaction) : Proc World (Z * string * option Error) :=
  match checkTransactionFields tx with
  | Some err => ret (StatusBadRequest, "", Some err)
  | None =>
      match Decode tx.(Sender) with
      | inl err => ret (StatusBadRequest, "", Some err)
      | inr senderBuff =>
          match ComputeShardId senderBuff with
          | inl err => ret (StatusInternalServerError, "", Some err)
          | inr shardId =>
              match GetObservers shardId with
              | inl err => ret (StatusInternalServerError, "", Some err)
              | inr observers => sendToObservers tx observers
              end
          end
      end
  end.

Definition getTxsByShardId (txs : list Transaction) : gmap Z (list Transaction) :=
  fold_left
    (fun txsMap tx =>
       match Decode tx.(Sender) with
       | inl _ => txsMap
       | inr senderBytes =>
           match ComputeShardId senderBytes with
           | inl _ => txsMap
           | inr senderShardId =>
               <[senderShardId := default [] (txsMap !! senderShardId) ++ [tx]]> txsMap
           end
       end)
    txs ∅.

(** The inner loop of [SendMultipleTransactions]: the batch of one shard is
    posted to the observers of the shard until one accepts it. *)
Fixpoint sendTxsInShard (txsInShard : list Transaction) (totalTxsSent : Z)
  (observersInShard : list NodeData) : Proc World Z :=
  match observersInShard with
  | [] => ret totalTxsSent
  | observer :: rest =>
      do r <- post observer.(Address) MultipleTransactionsPath (PostTxs txsInShard);
      let '(respCode, err, txResponse) := r in
      if (respCode =? StatusOK) && isNil err then
        ret (uint64 (totalTxsSent + txResponse.(NumOfTxs)))
      else
        sendTxsInShard txsInShard totalTxsSent rest
  end.

(** The outer loop of [SendMultipleTransactions], over the entries of
    [txsByShardId] in the order the range visits them. *)
Fixpoint sendTxsByShardId (totalTxsSent : Z) (entries : list (Z * list Transaction)) :
  Proc World (Z * option Error) :=
  match entries with
  | [] => ret (totalTxsSent, None)
  | (shardId, txsInShard) :: rest =>
      match GetObservers shardId with
      | inl _ => ret (0, Some ErrMissingObserver)
      | inr observersInShard =>
          do total <- sendTxsInShard txsInShard totalTxsSent observersInShard;
          sendTxsByShardId total rest
      end
  end.

Definition validTxs (txs : list Transaction) : list Transaction :=
  List.filter (fun currentTx => isNil (checkTransactionFields currentTx)) txs.

Definition SendMultipleTransactions (txs : list Transaction) : Proc World (Z * option Error) :=
  let txsToSend := validTxs txs in
  if (length txsToSend =? 0)%nat then ret (0, Some ErrNoValidTransactionToSend)
  else sendTxsByShardId 0 (rangeMap (getTxsByShardId txsToSend)).

(** The loop of [TransactionCostRequest] over all observers but those of
    the metachain. *)
Fixpoint costFromObservers (tx : Transaction) (observers : list NodeData) :
  Proc World (string * option Error) :=
  match observers with
  | [] => ret ("", Some ErrSendingRequest)
  | observer :: rest =>
      if observer.(ShardId) =? MetachainShardId then costFromObservers tx rest
      else
        do r <- post observer.(Address) TransactionCostPath (PostTx tx);
        let '(respCode, err, txCostResponse) := r in
        if (respCode =? StatusOK) && isNil err then
          ret (pretty (int_of_uint64 txCostResponse.(TxCost)), None)
        else if (respCode =? StatusNotFound) || (respCode =? StatusRequestTimeout) then
          costFromObservers tx rest
        else
          ret ("", err)
  end.

Definition TransactionCostRequest (tx : Transaction) : Proc World (string * option Error) :=
  match checkTransactionFields tx with
  | Some err => ret ("", Some err)
  | None => costFromObservers tx GetAllObservers
  end.

(** The loop of [GetTransactionStatus]: every observer is asked; an observer
    that answers adds its status to the responses of its shard. *)
Fixpoint collectStatuses (txHash : string) (observers : list NodeData)
  (observersResponses : gmap Z (list string)) : Proc World (gmap Z (list string)) :=
  match observers with
  | [] => ret observersResponses
  | observer :: rest =>
      do r <- get observer.(Address) (TransactionPath +:+ txHash +:+ "/status");
      let '(err, txStatusResponse) := r in
      if isNil err then
        collectStatuses txHash rest
          (<[observer.(ShardId) :=
               default [] (observersResponses !! observer.(ShardId))
                 ++ [txStatusResponse.(Status)]]> observersResponses)
      else collectStatuses txHash rest observersResponses
  end.

(** The first loop of [parseTxStatusResponses], for one shard. *)
Definition keepOkResponses (shardID : Z) (responses : list string)
  (okResponses : gmap Z (list string)) : gmap Z (list string) :=
  fold_left
    (fun ok response =>
       if String.eqb response UnknownStatusTx then ok
       else <[shardID := default [] (ok !! shardID) ++ [response]]> ok)
    responses okResponses.

(** [for _, response := range responses]: do all equal the first? *)
Fixpoint allEqualTo (firstOkResponse : string) (responses : list string) : bool :=
  match responses with
  | [] => true
  | response :: rest =>
      if String.eqb firstOkResponse response then allEqualTo firstOkResponse rest
      else false
  end.

(** [parseTxStatusResponses]; [None] stands for the run-time panic of
    [responses[0]] on an empty slice.  The first loop touches, for each
    shard, the entry of that shard only, so the order of the range does not
    matter; the last loop runs over a map of at most one entry. *)
Definition parseTxStatusResponses (allResponses : gmap Z (list string)) :
  option (string * option Error) :=
  let okResponses := map_fold keepOkResponses ∅ allResponses in
  if (1 <? size okResponses)%nat then Some ("", Some ErrCannotGetTransactionStatus)
  else
    match map_to_list okResponses with
    | (_, responses) :: _ =>
        match responses with
        | [] => None
        | firstOkResponse :: _ =>
            if allEqualTo firstOkResponse responses then Some (firstOkResponse, None)
            else Some ("", Some ErrCannotGetTransactionStatus)
        end
    | [] => Some (UnknownStatusTx, None)
    end.

Definition GetTransactionStatus (txHash : string) :
  Proc World (option (string * option Error)) :=
  do observersResponses <- collectStatuses txHash GetAllObservers ∅;
  ret (parseTxStatusResponses observersResponses).

Definition senderShard (tx : Transaction) : option Z :=
  match Decode tx.(Sender) with
  | inl _ => None
  | inr senderBytes =>
      match ComputeShardId senderBytes with
      | inl _ => None
      | inr senderShardId => Some senderShardId
      end
  end.

Definition addTx (txsMap : gmap Z (list Transaction)) (tx : Transaction) :=
  match senderShard tx with
  | None => txsMap
  | Some s => <[s := default [] (txsMap !! s) ++ [tx]]> txsMap
  end.


(** *** The logs are the answers of the REST client *)

Lemma answeredBy_app w t1 w1 t2 w2 :
  answeredBy CallPostRestEndPoint w t1 w1 ->
  answeredBy CallPostRestEndPoint w1 t2 w2 ->
  answeredBy CallPostRestEndPoint w (t1 ++ t2) w2.
Proof.
  revert w. induction t1 as [|ex t1 IH]; intros w H1 H2.
  - cbn in H1. by subst w1.
  - destruct H1 as (value & respCode & w' & Hv & Hc & Hcall & Hrest).
    exists value, respCode, w'. split_and!; [done..|]. by apply IH.
Qed.

Lemma askedOf_app w t1 w1 t2 w2 :
  askedOf CallGetRestEndPoint w t1 w1 ->
  askedOf CallGetRestEndPoint w1 t2 w2 ->
  askedOf CallGetRestEndPoint w (t1 ++ t2) w2.
Proof.
  revert w. induction t1 as [|ex t1 IH]; intros w H1 H2.
  - cbn in H1. by subst w1.
  - destruct H1 as (w' & Hv & Hc & Hcall & Hrest).
    exists w'. split_and!; [done..|]. by apply IH.
Qed.

Lemma post_answered address path value w :
  let r := post address path value w in
  answeredBy CallPostRestEndPoint w (trace r) (world r).
Proof.
  unfold post. destruct (CallPostRestEndPoint address path value w)
    as [[[respCode err] body] w1] eqn:Hcall.
  exists value, respCode, w1. by split_and!.
Qed.

Lemma get_asked address path w :
  let r := get address path w in
  askedOf CallGetRestEndPoint w (trace r) (world r).
Proof.
  unfold get. destruct (CallGetRestEndPoint address path w) as [[err body] w1] eqn:Hcall.
  exists w1. by split_and!.
Qed.

Lemma bind_answered {A B : Type} (m : Proc World A) (k : A -> Proc World B) w :
  answeredBy CallPostRestEndPoint w (trace (m w)) (world (m w)) ->
  (forall a w1, answeredBy CallPostRestEndPoint w1 (trace (k a w1)) (world (k a w1))) ->
  answeredBy CallPostRestEndPoint w (trace (bind m k w)) (world (bind m k w)).
Proof.
  intros Hm Hk. unfold bind. destruct (m w) as [[a w1] t1]. specialize (Hk a w1).
  destruct (k a w1) as [[b w2] t2]. by apply (answeredBy_app w t1 w1 t2 w2).
Qed.

Lemma bind_asked {A B : Type} (m : Proc World A) (k : A -> Proc World B) w :
  askedOf CallGetRestEndPoint w (trace (m w)) (world (m w)) ->
  (forall a w1, askedOf CallGetRestEndPoint w1 (trace (k a w1)) (world (k a w1))) ->
  askedOf CallGetRestEndPoint w (trace (bind m k w)) (world (bind m k w)).
Proof.
  intros Hm Hk. unfold bind. destruct (m w) as [[a w1] t1]. specialize (Hk a w1).
  destruct (k a w1) as [[b w2] t2]. by apply (askedOf_app w t1 w1 t2 w2).
Qed.

Lemma sendToObservers_answered tx observers w :
  let r := sendToObservers tx observers w in
  answeredBy CallPostRestEndPoint w (trace r) (world r).
Proof.
  cbv zeta. revert w. induction observers as [|observer rest IH]; intros w; [done|].
  cbn [sendToObservers]. apply bind_answered; [apply post_answered|].
  intros [[respCode err] txResponse] w1.
  destruct ((respCode =? StatusOK) && isNil err); [done|].
  destruct ((respCode =? StatusNotFound) || (respCode =? StatusRequestTimeout)); [apply IH|done].
Qed.

Lemma costFromObservers_answered tx observers w :
  let r := costFromObservers tx observers w in
  answeredBy CallPostRestEndPoint w (trace r) (world r).
Proof.
  cbv zeta. revert w. induction observers as [|observer rest IH]; intros w; [done|].
  cbn [costFromObservers]. destruct (ShardId observer =? MetachainShardId); [apply IH|].
  apply bind_answered; [apply post_answered|].
  intros [[respCode err] txCostResponse] w1.
  destruct ((respCode =? StatusOK) && isNil err); [done|].
  destruct ((respCode =? StatusNotFound) || (respCode =? StatusRequestTimeout)); [apply IH|done].
Qed.

Lemma sendTxsInShard_answered txsInShard total observers w :
  let r := sendTxsInShard txsInShard total observers w in
  answeredBy CallPostRestEndPoint w (trace r) (world r).
Proof.
  cbv zeta. revert w. induction observers as [|observer rest IH]; intros w; [done|].
  cbn [sendTxsInShard]. apply bind_answered; [apply post_answered|].
  intros [[respCode err] txResponse] w1.
  destruct ((respCode =? StatusOK) && isNil err); [done|apply IH].
Qed.

Lemma sendTxsByShardId_answered total entries w :
  let r := sendTxsByShardId total entries w in
  answeredBy CallPostRestEndPoint w (trace r) (world r).
Proof.
  cbv zeta. revert total w.
  induction entries as [|[shardId txsInShard] rest IH]; intros total w; [done|].
  cbn [sendTxsByShardId]. destruct (GetObservers shardId) as [err|observers]; [done|].
  apply bind_answered; [apply sendTxsInShard_answered|]. intros total1 w1. apply IH.
Qed.

Lemma SendMultipleTransactions_answered txs w :
  let r := SendMultipleTransactions txs w in
  answeredBy CallPostRestEndPoint w (trace r) (world r).
Proof.
  cbv zeta. unfold SendMultipleTransactions.
  destruct (length (validTxs txs) =? 0)%nat; [done|]. apply sendTxsByShardId_answered.
Qed.

Lemma collectStatuses_asked txHash observers observersResponses w :
  let r := collectStatuses txHash observers observersResponses w in
  askedOf CallGetRestEndPoint w (trace r) (world r).
Proof.
  cbv zeta. revert observersResponses w.
  induction observers as [|observer rest IH]; intros observersResponses w; [done|].
  cbn [collectStatuses]. apply bind_asked; [apply get_asked|].
  intros [err txStatusResponse] w1. destruct (isNil err); apply IH.
Qed.

Lemma collectStatuses_paths txHash observers observersResponses w :
  Forall (fun ex => exPath ex = TransactionPath +:+ txHash +:+ "/status")
    (trace (collectStatuses txHash observers observersResponses w)).
Proof.
  revert observersResponses w.
  induction observers as [|observer rest IH]; intros observersResponses w; [constructor|].
  cbn [collectStatuses]. unfold bind, get.
  destruct (CallGetRestEndPoint _ _ w) as [[err body] w1].
  destruct (isNil err).
  - match goal with
    | |- context [collectStatuses txHash rest ?m w1] =>
        specialize (IH m w1); destruct (collectStatuses txHash rest m w1) as [[res w2] tr]
    end.
    by constructor.
  - specialize (IH observersResponses w1).
    destruct (collectStatuses txHash rest observersResponses w1) as [[res w2] tr].
    by constructor.
Qed.

Lemma GetTransactionStatus_paths txHash w :
  Forall (fun ex => exPath ex = TransactionPath +:+ txHash +:+ "/status")
    (trace (GetTransactionStatus txHash w)).
Proof.
  unfold GetTransactionStatus, bind, ret.
  pose proof (collectStatuses_paths txHash GetAllObservers ∅ w) as H.
  destruct (collectStatuses txHash GetAllObservers ∅ w) as [[res w1] tr].
  unfold trace in *. cbn [snd] in *. by rewrite app_nil_r.
Qed.

Lemma GetTransactionStatus_asked txHash w :
  let r := GetTransactionStatus txHash w in
  askedOf CallGetRestEndPoint w (trace r) (world r).
Proof.
  cbv zeta. unfold GetTransactionStatus. apply bind_asked; [apply collectStatuses_asked|done].
Qed.

(** *** The send loop *)

Lemma sendToObservers_table tx observers w :
  decisionTable tx observers (sendToObservers tx observers w).
Proof.
  unfold decisionTable. revert w. induction observers as [|observer rest IH]; intros w.
  - exists [], []. cbn. split_and!; [done..|].
    left. by split_and!.
  - cbn [sendToObservers]. unfold bind, post.
    destruct (CallPostRestEndPoint (Address observer) TransactionSendPath (PostTx tx) w)
      as [[[respCode err] body] w1] eqn:Hcall.
    set (ex := mkExchange (Address observer) TransactionSendPath (Some (PostTx tx))
                 (Some respCode) err body).
    destruct ((respCode =? StatusOK) && isNil err) eqn:Hok.
    + apply andb_true_iff in Hok as [Hc He]. apply Z.eqb_eq in Hc.
      destruct err; [discriminate|]. subst respCode.
      exists [observer], rest. cbn. split_and!; [done|done|by repeat constructor|].
      right. exists [], ex. split_and!; [done|done|].
      left. by split.
    + destruct ((respCode =? StatusNotFound) || (respCode =? StatusRequestTimeout)) eqn:Hskip.
      * specialize (IH w1).
        destruct (sendToObservers tx rest w1) as [[res w2] tr] eqn:Hrest.
        destruct IH as (contacted & later & Hobs & Haddr & Hposted & Hcases).
        unfold trace, result in *. cbn [fst snd] in *.
        assert (Hsk : skipped ex).
        { unfold skipped. cbn. apply orb_true_iff in Hskip as [H|H]; apply Z.eqb_eq in H; subst; auto. }
        exists (observer :: contacted), later. cbn. split_and!.
        { by rewrite Hobs. }
        { by rewrite Haddr. }
        { constructor; [by split|done]. }
        destruct Hcases as [(Hl & Hall & Hres)|(skips & ex' & Htr & Hall & Hres)].
        -- left. by split_and!; [|constructor|].
        -- right. exists (ex :: skips), ex'. rewrite Htr. split_and!; [done|by constructor|done].
      * exists [observer], rest. cbn. split_and!; [done|done|by repeat constructor|].
        right. exists [], ex. split_and!; [done|done|]. right.
        apply orb_false_iff in Hskip as [H1 H2].
        apply Z.eqb_neq in H1, H2.
        split_and!.
        -- intros [Hc He]. cbn in Hc, He. injection Hc as ->. subst err.
           cbn in Hok. discriminate.
        -- intros [H|H]; cbn in H; injection H as ->; congruence.
        -- by exists respCode.
Qed.

(** C2.  For a transaction that passes field validation and whose sender
    shard and observers are resolved, [SendTransaction] contacts the
    observers of the sender's shard in the order of the pool and stops at the
    first that is not skipped: an observer answering HTTP 200 without
    transport error ends the call with the status 200 and the hash it gave;
    an observer answering 404 or 408 is skipped; any other answer ends the
    call with that status and that error, no later observer being contacted;
    when every observer was skipped the call ends with [ErrSendingRequest].
    The exchanges the table speaks of are the calls made: each carries what
    the REST client answered for that observer, in the state the calls
    before it left, and the call ends in the state after the last of them. *)
Theorem SendTransaction_decision_table tx senderBuff shardId observers w :
  checkTransactionFields tx = None ->
  Decode tx.(Sender) = inr senderBuff ->
  ComputeShardId senderBuff = inr shardId ->
  GetObservers shardId = inr observers ->
  let r := SendTransaction tx w in
  decisionTable tx observers r /\
  answeredBy CallPostRestEndPoint w (trace r) (world r).
Proof.
  intros Hvalid Hdecode Hshard Hobservers. unfold SendTransaction.
  rewrite Hvalid, Hdecode, Hshard, Hobservers.
  split; [apply sendToObservers_table|apply sendToObservers_answered].
Qed.

(** Without a shard for the sender, or without observers for the shard, no
    observer is contacted. *)
Lemma SendTransaction_no_shard tx senderBuff err w :
  checkTransactionFields tx = None ->
  Decode tx.(Sender) = inr senderBuff ->
  ComputeShardId senderBuff = inl err ->
  SendTransaction tx w = (StatusInternalServerError, "", Some err, w, []).
Proof. intros H1 H2 H3. unfold SendTransaction. by rewrite H1, H2, H3. Qed.

Lemma SendTransaction_no_observers tx senderBuff shardId err w :
  checkTransactionFields tx = None ->
  Decode tx.(Sender) = inr senderBuff ->
  ComputeShardId senderBuff = inr shardId ->
  GetObservers shardId = inl err ->
  SendTransaction tx w = (StatusInternalServerError, "", Some err, w, []).
Proof. intros H1 H2 H3 H4. unfold SendTransaction. by rewrite H1, H2, H3, H4. Qed.

(** *** The partition by shard *)

(** The batch of a shard goes to the observers of the shard until one
    accepts it, whose count is added to the total; when none accepts, the
    total is as it was. *)
Lemma sendTxsInShard_first_accepted txsInShard total observers w :
  let r := sendTxsInShard txsInShard total observers w in
  (Forall (fun ex => ~ accepted ex) (trace r) /\
   map exAddress (trace r) = map Address observers /\ result r = total)
  \/
  (exists refused ex,
     trace r = refused ++ [ex] /\ Forall (fun ex' => ~ accepted ex') refused /\ accepted ex /\
     result r = uint64 (total + NumOfTxs (exBody ex))).
Proof.
  revert w. induction observers as [|observer rest IH]; intros w.
  - left. cbn. by split_and!.
  - cbn [sendTxsInShard]. unfold bind, post.
    destruct (CallPostRestEndPoint _ _ _ w) as [[[respCode err] body] w1].
    set (ex := mkExchange _ _ _ _ _ _).
    destruct ((respCode =? StatusOK) && isNil err) eqn:Hok.
    + right. exists [], ex. apply andb_true_iff in Hok as [Hc He]. apply Z.eqb_eq in Hc.
      destruct err; [discriminate|]. subst respCode. cbn. by split_and!.
    + assert (Hno : ~ accepted ex).
      { intros [Hc He]. cbn in Hc, He. injection Hc as ->. subst err. discriminate. }
      specialize (IH w1). cbv zeta in IH.
      destruct (sendTxsInShard txsInShard total rest w1)
        as [[res w2] tr].
      unfold trace, result in *. cbn [fst snd app map exAddress] in *.
      destruct IH as [(Hall & Haddr & Hres)|(refused & ex' & Htr & Hall & Hacc & Hres)].
      * left. split_and!; [by constructor|by rewrite Haddr|done].
      * right. exists (ex :: refused), ex'. rewrite Htr. split_and!; [done|by constructor|done|done].
Qed.

(** When the observers of every shard of the partition are known, the loop
    over the shards ends without error, whatever the observers answer. *)
Lemma sendTxsByShardId_no_error total entries w :
  Forall (fun entry => exists observers, GetObservers entry.1 = inr observers) entries ->
  (result (sendTxsByShardId total entries w)).2 = None.
Proof.
  revert total w. induction entries as [|[shardId txsInShard] rest IH]; intros total w Hall;
    [done|].
  apply Forall_cons in Hall as [[observers Hobs] Hall]. cbn [fst] in Hobs.
  cbn [sendTxsByShardId]. rewrite Hobs. unfold bind.
  destruct (sendTxsInShard txsInShard total observers w)
    as [[total1 w1] t1].
  specialize (IH total1 w1 Hall).
  destruct (sendTxsByShardId total1 rest w1)
    as [[res w2] t2]. done.
Qed.

Lemma getTxsByShardId_fold txs :
  getTxsByShardId txs = fold_left addTx txs ∅.
Proof.
  unfold getTxsByShardId. generalize (∅ : gmap Z (list Transaction)).
  induction txs as [|tx txs IH]; intros m; [done|]. cbn [fold_left].
  rewrite IH. f_equal. unfold addTx, senderShard.
  destruct (Decode (Sender tx)); [done|]. by destruct (ComputeShardId _).
Qed.

Lemma fold_addTx_routed txs (m : gmap Z (list Transaction)) s batch t :
  (forall s' b' t', m !! s' = Some b' -> t' ∈ b' -> senderShard t' = Some s') ->
  fold_left addTx txs m !! s = Some batch -> t ∈ batch -> senderShard t = Some s.
Proof.
  revert m. induction txs as [|tx txs IH]; intros m Hm; cbn [fold_left]; [by eauto|].
  apply IH. intros s' b' t'. unfold addTx.
  destruct (senderShard tx) as [s0|] eqn:Htx; [|by eauto].
  destruct (decide (s0 = s')) as [->|Hne].
  - rewrite lookup_insert_eq. intros [= <-] [Hin| ->%list_elem_of_singleton]%elem_of_app; [|done].
    destruct (m !! s') eqn:Hl; [by eauto|]. cbn in Hin. by apply elem_of_nil in Hin.
  - rewrite lookup_insert_ne by done. eauto.
Qed.

Lemma getTxsByShardId_routed txs s batch t :
  getTxsByShardId txs !! s = Some batch -> t ∈ batch ->
  senderShard t = Some s.
Proof.
  rewrite getTxsByShardId_fold. apply fold_addTx_routed.
  intros s' b' t'. by rewrite lookup_empty.
Qed.

Lemma sendTxsInShard_trace txsInShard total observers w :
  Forall (fun ex => exValue ex = Some (PostTxs txsInShard))
    (trace (sendTxsInShard txsInShard total observers w)).
Proof.
  revert w. induction observers as [|observer rest IH]; intros w; [by constructor|].
  cbn [sendTxsInShard]. unfold bind, post.
  destruct (CallPostRestEndPoint _ _ _ w) as [[[respCode err] body] w1].
  destruct ((respCode =? StatusOK) && isNil err).
  - cbn. by repeat constructor.
  - specialize (IH w1).
    destruct (sendTxsInShard txsInShard total rest w1) as [[res w2] tr].
    cbn in *. by constructor.
Qed.

Lemma sendTxsByShardId_trace total entries w :
  Forall (fun ex => exists s batch, (s, batch) ∈ entries /\ exValue ex = Some (PostTxs batch))
    (trace (sendTxsByShardId total entries w)).
Proof.
  revert total w. induction entries as [|[shardId txsInShard] rest IH]; intros total w;
    [by constructor|].
  cbn [sendTxsByShardId]. destruct (GetObservers shardId) as [|observersInShard]; [by constructor|].
  unfold bind.
  pose proof (sendTxsInShard_trace txsInShard total observersInShard w) as H1.
  destruct (sendTxsInShard txsInShard total observersInShard w)
    as [[total1 w1] t1].
  specialize (IH total1 w1).
  destruct (sendTxsByShardId total1 rest w1)
    as [[res w2] t2].
  cbn in *. apply Forall_app. split.
  - eapply Forall_impl; [exact H1|]. intros ex Hex. exists shardId, txsInShard.
    split; [left|done].
  - eapply Forall_impl; [exact IH|]. intros ex (s & batch & Hin & Hex). exists s, batch.
    split; [by right|done].
Qed.

Lemma validTxs_app l1 l2 :
  validTxs (l1 ++ l2) = validTxs l1 ++ validTxs l2.
Proof. unfold validTxs. apply List.filter_app. Qed.

(** C9.  In [SendMultipleTransactions], a transaction that passes field
    validation but has no sender shard (its sender does not decode, or the
    shard computation fails) is left out of the partition by shard: the
    partition is the one of the other transactions, no batch posted to an
    observer holds it, and the call runs, and ends, as the loop over the
    partition of the other transactions does; when no other transaction is
    valid it ends with the total 0 and no error, no observer being
    contacted. *)
Theorem SendMultipleTransactions_omits_unroutable before tx after w :
  checkTransactionFields tx = None ->
  senderShard tx = None ->
  let r := SendMultipleTransactions (before ++ tx :: after) w in
  getTxsByShardId (validTxs (before ++ tx :: after))
    = getTxsByShardId (validTxs (before ++ after)) /\
  (forall ex, ex ∈ trace r -> exists batch, exValue ex = Some (PostTxs batch) /\ tx ∉ batch) /\
  r = sendTxsByShardId 0
        (rangeMap (getTxsByShardId (validTxs (before ++ after)))) w /\
  (validTxs (before ++ after) = [] -> r = (0, None, w, [])).
Proof.
  intros Hvalid Hshard r.
  assert (Hv : validTxs (before ++ tx :: after)
               = validTxs before ++ tx :: validTxs after).
  { rewrite validTxs_app. f_equal. unfold validTxs at 1. cbn [List.filter].
    by rewrite Hvalid. }
  assert (Hpart : getTxsByShardId (validTxs (before ++ tx :: after))
               = getTxsByShardId (validTxs (before ++ after))).
  { rewrite Hv, validTxs_app, !getTxsByShardId_fold, !fold_left_app. cbn [fold_left].
    f_equal. unfold addTx. by rewrite Hshard. }
  assert (Hr : r = sendTxsByShardId 0
        (rangeMap (getTxsByShardId (validTxs (before ++ after)))) w).
  { subst r. unfold SendMultipleTransactions. rewrite Hpart, Hv.
    rewrite length_app. cbn [length].
    destruct (_ =? 0)%nat eqn:Hlen; [|done]. apply Nat.eqb_eq in Hlen. lia. }
  split_and!; [done| |done|].
  2:{ intros Hnone. rewrite Hr, Hnone. cbn [getTxsByShardId fold_left].
      pose proof (rangeMap_perm ∅) as Hperm. rewrite map_to_list_empty in Hperm.
      apply Permutation_nil_r in Hperm. by rewrite Hperm. }
  intros ex Hex. rewrite Hr in Hex.
  pose proof (sendTxsByShardId_trace 0
    (rangeMap (getTxsByShardId (validTxs (before ++ after)))) w) as Htr.
  rewrite Forall_forall in Htr. destruct (Htr ex Hex) as (s & batch & Hin & Hval).
  exists batch. split; [done|]. intros Htx.
  rewrite rangeMap_perm in Hin. apply elem_of_map_to_list in Hin.
  pose proof (getTxsByShardId_routed _ _ _ _ Hin Htx). congruence.
Qed.

(** *** Status reconciliation *)

Lemma ofShard_cons s p l :
  ofShard s (p :: l) = if decide (p.1 = s) then p.2 :: ofShard s l else ofShard s l.
Proof. unfold ofShard. rewrite filter_cons. by destruct (decide (p.1 = s)). Qed.

Lemma collectStatuses_lookup txHash observers (m : gmap Z (list string)) w :
  let r := collectStatuses txHash observers m w in
  map exAddress (trace r) = map Address observers /\
  forall s, result r !! s =
    match ofShard s (answers observers (trace r)) with
    | [] => m !! s
    | l => Some (default [] (m !! s) ++ l)
    end.
Proof.
  revert m w. induction observers as [|observer rest IH]; intros m w r; [done|].
  subst r. cbn [collectStatuses]. unfold bind, get.
  destruct (CallGetRestEndPoint _ _ w) as [[err body] w1]. cbn beta iota.
  destruct err as [e|]; cbn [isNil].
  - specialize (IH m w1). cbv zeta in IH.
    destruct (collectStatuses txHash rest m w1) as [[res w2] tr].
    unfold trace, result in *. cbn in *. destruct IH as [-> IH]. done.
  - specialize (IH (<[ShardId observer :=
       default [] (m !! ShardId observer) ++ [Status body]]> m) w1). cbv zeta in IH.
    destruct (collectStatuses txHash rest _ w1) as [[res w2] tr].
    unfold trace, result in *. cbn [fst snd app map answers exErr isNil exAddress exBody] in *.
    destruct IH as [-> IH]. split; [done|]. intros s. rewrite IH, ofShard_cons. cbn [fst snd].
    destruct (decide (ShardId observer = s)) as [->|Hne].
    + rewrite lookup_insert_eq. cbn [default].
      destruct (ofShard s (answers rest tr)); [done|]. unfold id. by rewrite <- app_assoc.
    + by rewrite lookup_insert_ne.
Qed.

Lemma keepOkResponses_lookup shardID responses (ok : gmap Z (list string)) s :
  keepOkResponses shardID responses ok !! s =
    if decide (shardID = s) then
      match filter (fun r => r <> UnknownStatusTx) responses with
      | [] => ok !! s
      | l => Some (default [] (ok !! s) ++ l)
      end
    else ok !! s.
Proof.
  unfold keepOkResponses. revert ok.
  induction responses as [|response rest IH]; intros ok; cbn [fold_left].
  - by destruct (decide _).
  - rewrite IH. destruct (decide (shardID = s)) as [->|Hne].
    + rewrite filter_cons. destruct (String.eqb_spec response UnknownStatusTx) as [Heq|Hneq].
      * by rewrite decide_False by (intros H; by apply H).
      * rewrite decide_True by done. rewrite lookup_insert_eq. cbn [default].
        destruct (filter _ rest); [done|]. unfold id. by rewrite <- app_assoc.
    + destruct (String.eqb response UnknownStatusTx); [done|]. by rewrite lookup_insert_ne.
Qed.

Lemma okResponses_lookup (allResponses : gmap Z (list string)) s :
  map_fold keepOkResponses ∅ allResponses !! s =
    allResponses !! s ≫= (fun rs => nonEmpty (filter (fun r => r <> UnknownStatusTx) rs)).
Proof.
  revert s. apply (map_fold_weak_ind (fun r m => forall s, r !! s = m !! s ≫= _)).
  - intros s. by rewrite !lookup_empty.
  - intros i x m r Hi IH s. rewrite keepOkResponses_lookup.
    destruct (decide (i = s)) as [->|Hne].
    + rewrite lookup_insert_eq, IH, Hi. cbn. by destruct (filter _ x).
    + by rewrite lookup_insert_ne, IH.
Qed.

Lemma ofShard_known s l :
  ofShard s (filter (fun p : Z * string => p.2 <> UnknownStatusTx) l)
  = filter (fun r => r <> UnknownStatusTx) (ofShard s l).
Proof.
  induction l as [|p l IH]; [done|]. rewrite filter_cons, ofShard_cons.
  destruct (decide (p.2 <> UnknownStatusTx)) as [Hk|Hk]; destruct (decide (p.1 = s)) as [Hs|Hs].
  - rewrite ofShard_cons, decide_True by done. rewrite filter_cons_True by done. by rewrite IH.
  - rewrite ofShard_cons, decide_False by done. done.
  - rewrite filter_cons_False by done. done.
  - done.
Qed.

Lemma okResponses_of_answers txHash w s :
  let r := collectStatuses txHash GetAllObservers ∅ w in
  map_fold keepOkResponses ∅ (result r) !! s
  = nonEmpty (ofShard s (knownAnswers GetAllObservers (trace r))).
Proof.
  intros r. rewrite okResponses_lookup.
  destruct (collectStatuses_lookup txHash GetAllObservers ∅ w) as [_ H]. fold r in H.
  rewrite H, lookup_empty. unfold knownAnswers. rewrite ofShard_known.
  destruct (ofShard s (answers GetAllObservers (trace r))) as [|st l]; [done|].
  cbn [default app mbind option_bind]. done.
Qed.

Lemma allEqualTo_Forall x l : allEqualTo x l = true <-> Forall (fun y => y = x) l.
Proof.
  induction l as [|y l IH]; cbn [allEqualTo].
  - split; [by constructor|done].
  - destruct (String.eqb_spec x y) as [<-|Hne].
    + rewrite IH. split; [by constructor|by inversion 1].
    + split; [done|]. inversion 1; congruence.
Qed.

Lemma map_size_le_1_singleton (m : gmap Z (list string)) i x :
  (size m <= 1)%nat -> m !! i = Some x -> m = {[i := x]}.
Proof.
  intros Hsize Hi. rewrite <- (insert_delete_id m i x Hi).
  assert (Hdel : delete i m = ∅).
  { apply map_size_empty_inv. rewrite map_size_delete_Some by eauto. lia. }
  by rewrite Hdel, insert_empty.
Qed.

Lemma elem_of_ofShard (p : Z * string) l : p ∈ l -> p.2 ∈ ofShard p.1 l.
Proof.
  intros Hp. unfold ofShard. apply list_elem_of_fmap. exists p. split; [done|].
  by apply list_elem_of_filter.
Qed.

Lemma ofShard_other s l : (forall p, p ∈ l -> p.1 <> s) -> ofShard s l = [].
Proof.
  intros H. unfold ofShard. induction l as [|p l IH]; [done|].
  rewrite filter_cons_False by (apply H; left). apply IH. intros q Hq. apply H. by right.
Qed.

Lemma ofShard_all s l : (forall p, p ∈ l -> p.1 = s) -> ofShard s l = l.*2.
Proof.
  intros H. unfold ofShard. induction l as [|p l IH]; [done|].
  rewrite filter_cons_True by (apply H; left). cbn. f_equal. apply IH.
  intros q Hq. apply H. by right.
Qed.

(** The three cases of the reconciliation leave nothing out. *)
Lemma answers_cases (known : list (Z * string)) :
  known = [] \/
  (exists s st, known <> [] /\ Forall (fun p => p = (s, st)) known) \/
  (exists p q, p ∈ known /\ q ∈ known /\ p <> q).
Proof.
  destruct known as [|[s st] rest]; [by left|]. right.
  destruct (decide (Forall (fun p => p = (s, st)) rest)) as [Hall|Hnot].
  - left. exists s, st. split; [done|]. by constructor.
  - right. apply not_Forall_Exists in Hnot; [|apply _].
    apply Exists_exists in Hnot as (q & Hq & Hne).
    exists (s, st), q. split_and!; [left|by right|]. intros <-. by apply Hne.
Qed.

Lemma parseTxStatusResponses_cases (allResponses : gmap Z (list string)) (L : list (Z * string)) :
  (forall s, map_fold keepOkResponses ∅ allResponses !! s = nonEmpty (ofShard s L)) ->
  (L = [] -> parseTxStatusResponses allResponses = Some (UnknownStatusTx, None)) /\
  (forall s st, L <> [] -> Forall (fun p => p = (s, st)) L ->
     parseTxStatusResponses allResponses = Some (st, None)) /\
  (forall p q, p ∈ L -> q ∈ L -> p <> q ->
     parseTxStatusResponses allResponses = Some ("", Some ErrCannotGetTransactionStatus)).
Proof.
  intros Hok. unfold parseTxStatusResponses.
  set (ok := map_fold keepOkResponses ∅ allResponses) in *.
  split_and!.
  - intros ->. assert (Hemp : ok = ∅).
    { apply map_empty. intros s. by rewrite Hok. }
    rewrite Hemp, map_size_empty, map_to_list_empty. done.
  - intros s st Hne Hall. rewrite Forall_forall in Hall.
    assert (Hsing : ok = {[s := L.*2]}).
    { apply map_eq. intros s'. rewrite Hok. destruct (decide (s = s')) as [<-|Hs].
      - rewrite lookup_singleton_eq, ofShard_all.
        + destruct L; [done|done].
        + intros p Hp. by rewrite (Hall p Hp).
      - rewrite lookup_singleton_ne by done. rewrite ofShard_other; [done|].
        intros p Hp. by rewrite (Hall p Hp). }
    rewrite Hsing, map_size_singleton, map_to_list_singleton. cbn [Nat.ltb Nat.leb].
    destruct L as [|p L']; [done|]. rewrite (Hall p) by left. cbn [fmap list_fmap snd].
    assert (Heq : allEqualTo st (st :: L'.*2) = true).
    { apply allEqualTo_Forall. constructor; [done|]. apply Forall_forall.
      intros y (q & -> & Hq)%list_elem_of_fmap. rewrite (Hall q) by (by right). done. }
    by rewrite Heq.
  - intros p q Hp Hq Hpq.
    destruct (1 <? size ok)%nat eqn:Hsize; [done|]. apply Nat.ltb_ge in Hsize.
    pose proof (elem_of_ofShard p L Hp) as Hp2. pose proof (elem_of_ofShard q L Hq) as Hq2.
    pose proof (Hok p.1) as Hlp. pose proof (Hok q.1) as Hlq.
    destruct (ofShard p.1 L) as [|x rs] eqn:Ep; [by apply elem_of_nil in Hp2|].
    destruct (ofShard q.1 L) as [|y rs'] eqn:Eq; [by apply elem_of_nil in Hq2|].
    cbn [nonEmpty] in Hlp, Hlq.
    pose proof (map_size_le_1_singleton ok _ _ Hsize Hlp) as Hsing.
    rewrite Hsing in Hlq. apply lookup_singleton_Some in Hlq as [Heq1 Heq2].
    rewrite Hsing, map_to_list_singleton.
    destruct (allEqualTo x (x :: rs)) eqn:Hall; [|done].
    apply allEqualTo_Forall in Hall. rewrite Forall_forall in Hall.
    exfalso. apply Hpq. destruct p as [p1 p2], q as [q1 q2]. cbn [fst snd] in *.
    f_equal; [done|]. rewrite (Hall p2 Hp2). rewrite Heq2 in Hall. by rewrite (Hall q2 Hq2).
Qed.

(** C1, as amended.  [GetTransactionStatus] asks every observer once, in the
    order of the pool, and returns (the slice it indexes is never empty).  It
    reconciles the statuses that came back and are not "unknown": when
    there is none the status is "unknown"; when all of them
    come from one shard and are the same status, that status is returned;
    when two of them differ, in shard or in status, the call fails with
    [ErrCannotGetTransactionStatus].  The statuses reconciled are those the
    REST client gave: every exchange of the log carries its answer for that
    observer, in the state the calls before it left. *)
Theorem GetTransactionStatus_reconciliation txHash w :
  let r := GetTransactionStatus txHash w in
  let known := knownAnswers GetAllObservers (trace r) in
  askedOf CallGetRestEndPoint w (trace r) (world r) /\
  Forall (fun ex => exPath ex = TransactionPath +:+ txHash +:+ "/status") (trace r) /\
  map exAddress (trace r) = map Address GetAllObservers /\
  is_Some (result r) /\
  (known = [] -> result r = Some (UnknownStatusTx, None)) /\
  (forall s st, known <> [] -> Forall (fun p => p = (s, st)) known ->
     result r = Some (st, None)) /\
  (forall p q, p ∈ known -> q ∈ known -> p <> q ->
     result r = Some ("", Some ErrCannotGetTransactionStatus)).
Proof.
  intros r known.
  split; [apply GetTransactionStatus_asked|].
  split; [apply GetTransactionStatus_paths|].
  pose proof (fun s => okResponses_of_answers txHash w s) as Hok. cbv zeta in Hok.
  destruct (collectStatuses_lookup txHash GetAllObservers ∅ w) as [Haddr _].
  subst known r. unfold GetTransactionStatus, bind, ret.
  destruct (collectStatuses txHash GetAllObservers ∅ w)
    as [[responses w1] tr].
  unfold trace, result in *. cbn [fst snd] in *. rewrite app_nil_r.
  destruct (parseTxStatusResponses_cases responses (knownAnswers GetAllObservers tr) Hok)
    as (Hnone & Hone & Htwo).
  split_and!; [done| |done..].
  destruct (answers_cases (knownAnswers GetAllObservers tr))
    as [Hk|[(s & st & Hne & Hall)|(p & q & Hp & Hq & Hpq)]].
  - rewrite (Hnone Hk). eauto.
  - rewrite (Hone s st Hne Hall). eauto.
  - rewrite (Htwo p q Hp Hq Hpq). eauto.
Qed.

(** *** Field validation *)

Definition withChain (tx : Transaction) (chainID : string) (version : Z) : Transaction :=
  mkTransaction tx.(Nonce) tx.(Value) tx.(Receiver) tx.(Sender) tx.(GasPrice) tx.(GasLimit)
    tx.(Data) tx.(Signature) chainID version.

(** Validation reads the sender, the receiver and the signature only: the
    chain identifier and the version of a transaction play no part in it. *)
Lemma checkTransactionFields_withChain tx chainID version :
  checkTransactionFields (withChain tx chainID version) = checkTransactionFields tx.
Proof. reflexivity. Qed.

(** A transaction that fails validation reaches no observer. *)
Lemma SendTransaction_invalid tx err w :
  checkTransactionFields tx = Some err ->
  SendTransaction tx w = (StatusBadRequest, "", Some err, w, []).
Proof. intros H. unfold SendTransaction. by rewrite H. Qed.

Lemma TransactionCostRequest_invalid tx err w :
  checkTransactionFields tx = Some err ->
  TransactionCostRequest tx w = ("", Some err, w, []).
Proof. intros H. unfold TransactionCostRequest. by rewrite H. Qed.

Lemma SendMultipleTransactions_none_valid txs w :
  validTxs txs = [] ->
  SendMultipleTransactions txs w = (0, Some ErrNoValidTransactionToSend, w, []).
Proof. intros H. unfold SendMultipleTransactions. by rewrite H. Qed.

End TransactionProcessor.

End Process.

(** ** The transaction processor on the scenarios of the specification *)

Module ProcessScenarios.
Import Process.

(** The address codec of the tests: an address is the hexadecimal text of
    its bytes. *)
Definition hexCodec (s : string) : Error + list byte :=
  match GoHex.DecodeString s with
  | inl e => inl (HexError e)
  | inr b => inr b
  end.

Definition tx0 : Transaction := mkTransaction 0 "" "" "" 0 0 "" "" "" 0.

Definition withSender (sender : string) : Transaction :=
  mkTransaction 0 "" "aaaaaa" sender 0 0 "" "" "chain" 1.

Definition reply (code : Z) (err : option Error) (body : ResponseBody) :
  Z * option Error * ResponseBody * unit := (code, err, body, tt).

(** S1: the first observer of the shard is down, the second accepts. *)
Definition observersS1 : list NodeData :=
  [mkNodeData "address1" 0; mkNodeData "address2" 0].

Definition postS1 (address path : string) (value : PostValue) (w : unit) :=
  if String.eqb address "address1" then reply 404 (Some (External "not found")) emptyBody
  else reply 200 None (txBody "HASH123" 0 [] 0 "").

Definition txS1 : Transaction := withSender "DEADBEEF".

(** A shard router that knows addresses of six bytes only: those of "b"s are
    in shard 0, the others in shard 1. *)
Definition routeBySender (addressBuff : list byte) : Error + Z :=
  if (length addressBuff =? 6)%nat then
    if String.eqb (string_of_list_byte addressBuff) "bbbbbb" then inr 0 else inr 1
  else inl (External "invalid address length").

Definition sndrShard0 : string := "626262626262".
Definition sndrShard1 : string := "636363636363".

Definition observersS3 (shardID : Z) : Error + list NodeData :=
  if shardID =? 0 then inr [mkNodeData "observer0" 0] else inr [mkNodeData "observer1" 1].

(** S3: every observer accepts the two transactions of its batch and gives
    their hashes. *)
Definition postS3 (h0 h1 h2 h3 : string) (address path : string) (value : PostValue) (w : unit) :=
  if String.eqb address "observer0" then reply 200 None (txBody "" 2 [(0, h0); (1, h1)] 0 "")
  else reply 200 None (txBody "" 2 [(0, h2); (1, h3)] 0 "").

Definition txsS3 : list Transaction :=
  [withSender sndrShard0; withSender sndrShard0; withSender sndrShard1; withSender sndrShard1].

Definition statusS5 (status0 status1 : string) (address path : string) (w : unit) :
  option Error * ResponseBody * unit :=
  (None, txBody "" 0 [] 0 (if String.eqb address "observer0" then status0 else status1), tt).

Definition observersS5 : list NodeData :=
  [mkNodeData "observer0" 0; mkNodeData "observer1" 1].

Definition routeAll0 (addressBuff : list byte) : Error + Z := inr 0.

Definition poolS1 (shardID : Z) : Error + list NodeData := inr observersS1.

(** C2, witness: scenario S1, where the first observer answers 404 and the
    second accepts. *)
Lemma SendTransaction_decision_table_witness :
  checkTransactionFields hexCodec txS1 = None /\
  hexCodec (Sender txS1) = inr [xde; xad; xbe; xef] /\
  routeAll0 [xde; xad; xbe; xef] = inr 0 /\
  poolS1 0 = inr observersS1 /\
  let r := SendTransaction unit hexCodec routeAll0 poolS1 postS1 txS1 tt in
  decisionTable txS1 observersS1 r /\ answeredBy postS1 tt (trace r) (world r).
Proof.
  assert (H1 : checkTransactionFields hexCodec txS1 = None) by (vm_compute; reflexivity).
  assert (H2 : hexCodec (Sender txS1) = inr [xde; xad; xbe; xef]) by (vm_compute; reflexivity).
  split_and!; [exact H1|exact H2|reflexivity|reflexivity|].
  exact (SendTransaction_decision_table unit hexCodec routeAll0 poolS1 postS1
           txS1 [xde; xad; xbe; xef] 0 observersS1 tt H1 H2 eq_refl eq_refl).
Defined.

(** S1 and S2 of the specification, replayed. *)
Example SendTransaction_S1 :
  SendTransaction unit hexCodec routeAll0 poolS1 postS1 txS1 tt
  = (200, "HASH123", None, tt,
     [mkExchange "address1" TransactionSendPath (Some (PostTx txS1)) (Some 404)
        (Some (External "not found")) emptyBody;
      mkExchange "address2" TransactionSendPath (Some (PostTx txS1)) (Some 200)
        None (txBody "HASH123" 0 [] 0 "")]).
Proof. vm_compute. reflexivity. Qed.

Definition postS2 (address path : string) (value : PostValue) (w : unit) :=
  reply 400 (Some (External "bad nonce")) emptyBody.

Example SendTransaction_S2 :
  let r := SendTransaction unit hexCodec routeAll0 poolS1 postS2 txS1 tt in
  result r = (400, "", Some (External "bad nonce")) /\ map exAddress (trace r) = ["address1"].
Proof. vm_compute. split; reflexivity. Qed.

(** C9, witness: between two transactions of shards 0 and 1, one whose
    sender has four bytes, which the router refuses. *)
Lemma SendMultipleTransactions_omits_unroutable_witness :
  let r := SendMultipleTransactions unit hexCodec routeBySender observersS3
             (postS3 "hash0" "hash1" "hash2" "hash3") map_to_list
             ([withSender sndrShard0] ++ txS1 :: [withSender sndrShard1]) tt in
  checkTransactionFields hexCodec txS1 = None /\
  senderShard hexCodec routeBySender txS1 = None /\
  (forall ex, ex ∈ trace r -> exists batch, exValue ex = Some (PostTxs batch) /\ txS1 ∉ batch) /\
  result r = (4, None).
Proof.
  assert (H1 : checkTransactionFields hexCodec txS1 = None) by (vm_compute; reflexivity).
  assert (H2 : senderShard hexCodec routeBySender txS1 = None) by (vm_compute; reflexivity).
  split_and!; [exact H1|exact H2| |vm_compute; reflexivity].
  exact (proj1 (proj2 (SendMultipleTransactions_omits_unroutable unit hexCodec routeBySender
           observersS3 (postS3 "hash0" "hash1" "hash2" "hash3") map_to_list
           (fun m => Permutation_refl _)
           [withSender sndrShard0] txS1 [withSender sndrShard1] tt H1 H2))).
Defined.

(** C1, counterexample.  Two observers of two shards answer, and both say
    "executed": the upstreams agree, and yet the call fails. *)
Lemma GetTransactionStatus_agreeing_shards_rejected :
  let r := GetTransactionStatus unit observersS5 (statusS5 "executed" "executed") "hash0" tt in
  answers observersS5 (trace r) = [(0, "executed"); (1, "executed")] /\
  result r = Some ("", Some ErrCannotGetTransactionStatus) /\
  result r <> Some ("executed", None).
Proof. vm_compute. split_and!; [reflexivity|reflexivity|discriminate]. Qed.

(** S5 of the specification: the shards disagree. *)
Example GetTransactionStatus_S5 :
  result (GetTransactionStatus unit observersS5 (statusS5 "executed" "invalid") "hash0" tt)
  = Some ("", Some ErrCannotGetTransactionStatus).
Proof. vm_compute. reflexivity. Qed.

Example GetTransactionStatus_one_shard :
  result (GetTransactionStatus unit observersS5 (statusS5 "executed" "unknown") "hash0" tt)
  = Some ("executed", None).
Proof. vm_compute. reflexivity. Qed.

(** C3, at S3 of the specification.  Both observers accept their batch and
    give the hashes of its transactions; the call returns the number of
    accepted transactions and nothing else, whatever the hashes were. *)
Lemma SendMultipleTransactions_returns_count_only :
  result (SendMultipleTransactions unit hexCodec routeBySender observersS3
            (postS3 "hash0" "hash1" "hash2" "hash3") map_to_list txsS3 tt) = (4, None) /\
  result (SendMultipleTransactions unit hexCodec routeBySender observersS3
            (postS3 "other0" "other1" "other2" "other3") map_to_list txsS3 tt) = (4, None).
Proof. split; vm_compute; reflexivity. Qed.

(** C4, at the transaction of the test [SendTransactionNoChainIDShouldErr]:
    no chain identifier, version 0.  Validation lets it through, and every
    write path goes on to the observers. *)
Lemma write_paths_dispatch_without_chainID :
  ChainID tx0 = "" /\ Version tx0 = 0 /\
  checkTransactionFields hexCodec tx0 = None /\
  (let r := SendTransaction unit hexCodec routeAll0 poolS1 postS1 tx0 tt in
   result r = (200, "HASH123", None) /\ map exAddress (trace r) = ["address1"; "address2"]) /\
  (let r := SendMultipleTransactions unit hexCodec routeAll0 poolS1 postS1 map_to_list [tx0] tt in
   result r = (0, None) /\ map exAddress (trace r) = ["address1"; "address2"]) /\
  (let r := TransactionCostRequest unit hexCodec observersS1 postS1 tx0 tt in
   result r = ("0", None) /\ map exAddress (trace r) = ["address1"; "address2"]).
Proof. vm_compute. split_and!; reflexivity. Qed.
End ProcessScenarios.

(** ** The HTTP handlers (packages [api/address] and [api/vmValues]) *)

Module Gin.

(** A value stored in a [gin.Context], read through [c.MustGet(key).(T)]:
    all that matters of it is whether it is a facade of the type the handler
    asserts. *)
Inductive Stored (Facade : Type) : Type :=
| IsFacade (f : Facade)
| NotFacade.
Arguments IsFacade {Facade} f.
Arguments NotFacade {Facade}.

(** [gin.H] with one entry, as every reply of these handlers has. *)
Definition H : Type := string * string.

(** What a handler does with a request: it writes one JSON reply, having
    made some calls to the facade, or it panics ([c.MustGet] on a key that
    is not set). *)
Inductive Outcome (Call : Type) : Type :=
| Responded (status : Z) (body : H) (calls : list Call)
| Panicked.
Arguments Responded {Call} status body calls.
Arguments Panicked {Call}.

(** [c.Param(name)]: the value of the first path parameter of that name, the
    empty string when there is none. *)
Fixpoint Param (params : list (string * string)) (name : string) : string :=
  match params with
  | [] => ""
  | (k, v) :: rest => if String.eqb k name then v else Param rest name
  end.

End Gin.

Module AddressApi.
Import Gin.

(** The errors of package [api/errors] the handler names. *)
Inductive ApiError : Type :=
| ErrInvalidAppContext
| ErrGetValueForKey
| ErrEmptyAddress
| ErrEmptyKey.

(** The method of [FacadeHandler] the handler calls; an error is known by
    its text. *)
Record FacadeHandler : Type := mkFacade {
  FacadeGetValueForKey : string -> string -> string + string
}.

Record FacadeCall : Type := mkFacadeCall {
  callAddress : string;
  callKey : string
}.

Record Context : Type := mkContext {
  Keys : gmap string (Stored FacadeHandler);
  Params : list (string * string)
}.

Section Handlers.

(** [err.Error()] for the errors of [api/errors], whose texts are declared
    outside the sources at hand. *)
Variable errorText : ApiError -> string.

(** [fmt.Sprintf("%s: %s", a, b)]. *)
Definition wrap (a b : string) : string := a +:+ ": " +:+ b.

Definition GetValueForKey (c : Context) : Outcome FacadeCall :=
  match c.(Keys) !! "elrondFacade" with
  | None => Panicked
  | Some NotFacade =>
      Responded StatusInternalServerError ("error", errorText ErrInvalidAppContext) []
  | Some (IsFacade ef) =>
      let addr := Param c.(Params) "address" in
      if String.eqb addr "" then
        Responded StatusBadRequest
          ("error", wrap (errorText ErrGetValueForKey) (errorText ErrEmptyAddress)) []
      else
        let key := Param c.(Params) "key" in
        if String.eqb addr "" then
          Responded StatusBadRequest
            ("error", wrap (errorText ErrGetValueForKey) (errorText ErrEmptyKey)) []
        else
          match ef.(FacadeGetValueForKey) addr key with
          | inl err =>
              Responded StatusInternalServerError
                ("error", wrap (errorText ErrGetValueForKey) err) [mkFacadeCall addr key]
          | inr value => Responded StatusOK ("value", value) [mkFacadeCall addr key]
          end
  end.

(** The request for the key [key] of the address [addr], on a server whose
    context holds the facade [ef]. *)
Definition request (ef : FacadeHandler) (addr key : string) : Context :=
  mkContext {[ "elrondFacade" := IsFacade ef ]} [("address", addr); ("key", key)].

(** C8, on the code.  For an address that is not empty and an empty key the
    handler does not answer [ErrEmptyKey]: its second guard tests the
    address again, so the facade is called with the empty key, and the reply
    is the one of the facade. *)
Theorem GetValueForKey_empty_key_reaches_facade ef (a : ascii) (addr' : string) :
  GetValueForKey (request ef (String a addr') "") =
    match ef.(FacadeGetValueForKey) (String a addr') "" with
    | inl err =>
        Responded StatusInternalServerError
          ("error", wrap (errorText ErrGetValueForKey) err) [mkFacadeCall (String a addr') ""]
    | inr value => Responded StatusOK ("value", value) [mkFacadeCall (String a addr') ""]
    end.
Proof.
  unfold GetValueForKey, request. cbn [Keys Params].
  rewrite lookup_singleton_eq. reflexivity.
Qed.

(** The guard on the address does work. *)
Lemma GetValueForKey_empty_address ef key :
  GetValueForKey (request ef "" key)
  = Responded StatusBadRequest
      ("error", wrap (errorText ErrGetValueForKey) (errorText ErrEmptyAddress)) [].
Proof.
  unfold GetValueForKey, request. cbn [Keys Params].
  rewrite lookup_singleton_eq. reflexivity.
Qed.

End Handlers.

End AddressApi.

Module AddressScenarios.
Import Gin AddressApi.

(** A facade in which every key of every address holds ["stored"]. *)
Definition facade : FacadeHandler := mkFacade (fun address key => inr "stored").

Definition texts (e : ApiError) : string :=
  match e with
  | ErrInvalidAppContext => "invalid app context"
  | ErrGetValueForKey => "get value for key error"
  | ErrEmptyAddress => "address is empty"
  | ErrEmptyKey => "key is empty"
  end.

Example value_for_empty_key :
  GetValueForKey texts (request facade "erd1abc" "")
  = Responded 200 ("value", "stored") [mkFacadeCall "erd1abc" ""].
Proof. vm_compute. reflexivity. Qed.

End AddressScenarios.

Module VmValues.
Import Gin.

(** [VmValueRequest]: the body of a vm-value request. *)
Record VmValueRequest : Type := mkVmValueRequest {
  ScAddress : string;
  FuncName : string;
  Args : list string
}.

(** The method of [FacadeHandler] the handlers call; an error is known by
    its text. *)
Record FacadeHandler : Type := mkFacade {
  GetVmValue : string -> string -> string -> list (list byte) -> string + list byte
}.

Record FacadeCall : Type := mkFacadeCall {
  callResType : string;
  callAddress : string;
  callFuncName : string;
  callArgs : list (list byte)
}.

(** A request as the handler sees it: the values of the context, and what
    [c.ShouldBindJSON] makes of the body (an error, by its text, or the
    request it decodes to). *)
Record Context : Type := mkContext {
  Keys : gmap string (Stored FacadeHandler);
  BindJSON : string + VmValueRequest
}.

(** [big.NewInt(0).SetString(s, 10)]: an optional sign, then decimal digits,
    at least one, and nothing else. *)
Fixpoint parseDigits (acc : Z) (s : string) : option Z :=
  match s with
  | EmptyString => Some acc
  | String c rest =>
      let n := Z.of_N (N_of_ascii c) in
      if (48 <=? n) && (n <=? 57) then parseDigits (10 * acc + (n - 48)) rest
      else None
  end.

Definition SetString (s : string) : option Z :=
  match s with
  | EmptyString => None
  | String c rest =>
      if Ascii.eqb c "-" then
        match rest with EmptyString => None | _ => Z.opp <$> parseDigits 0 rest end
      else if Ascii.eqb c "+" then
        match rest with EmptyString => None | _ => parseDigits 0 rest end
      else parseDigits 0 s
  end.

Section Handlers.

(** The text of [apiErrors.ErrInvalidAppContext] and the rendering [%#U] of
    a byte, both declared outside the sources at hand. *)
Variable invalidAppContext : string.
Variable fmtU : byte -> string.

(** The loop of [vmValueFromAccount] over the arguments: [inl] is the
    error of the first argument that is not hexadecimal. *)
Fixpoint decodeArgs (args : list string) (argsBuff : list (list byte)) :
  string + list (list byte) :=
  match args with
  | [] => inr argsBuff
  | arg :: rest =>
      match GoHex.DecodeString arg with
      | inl err =>
          inl ("'" +:+ arg +:+ "' is not a valid hex string: " +:+ GoHex.ErrorText fmtU err)
      | inr buff => decodeArgs rest (argsBuff ++ [buff])
      end
  end.

(** [vmValueFromAccount]: the data, the status, the error, and the calls
    made to the facade; [None] is the panic of [c.MustGet]. *)
Definition vmValueFromAccount (c : Context) (resType : string) :
  option (list byte * Z * option string * list FacadeCall) :=
  match c.(Keys) !! "elrondProxyFacade" with
  | None => None
  | Some NotFacade => Some ([], StatusInternalServerError, Some invalidAppContext, [])
  | Some (IsFacade ef) =>
      match c.(BindJSON) with
      | inl err => Some ([], StatusBadRequest, Some err, [])
      | inr gval =>
          match decodeArgs gval.(Args) [] with
          | inl err => Some ([], StatusBadRequest, Some err, [])
          | inr argsBuff =>
              let call := mkFacadeCall resType gval.(ScAddress) gval.(FuncName) argsBuff in
              match ef.(GetVmValue) resType gval.(ScAddress) gval.(FuncName) argsBuff with
              | inl err => Some ([], StatusBadRequest, Some err, [call])
              | inr returnedData => Some (returnedData, StatusOK, None, [call])
              end
          end
      end
  end.

Definition GetVmValueAsHexBytes (c : Context) : Outcome FacadeCall :=
  match vmValueFromAccount c "hex" with
  | None => Panicked
  | Some (data, status, Some err, calls) =>
      Responded status ("error", "get vm value as hex bytes: " +:+ err) calls
  | Some (data, status, None, calls) =>
      Responded StatusOK ("data", GoHex.EncodeToString data) calls
  end.

Definition GetVmValueAsString (c : Context) : Outcome FacadeCall :=
  match vmValueFromAccount c "string" with
  | None => Panicked
  | Some (data, status, Some err, calls) =>
      Responded status ("error", "get vm value as string: " +:+ err) calls
  | Some (data, status, None, calls) =>
      Responded StatusOK ("data", string_of_list_byte data) calls
  end.

Definition GetVmValueAsBigInt (c : Context) : Outcome FacadeCall :=
  match vmValueFromAccount c "int" with
  | None => Panicked
  | Some (data, status, Some err, calls) =>
      Responded status ("error", "get vm value as big int: " +:+ err) calls
  | Some (data, status, None, calls) =>
      match SetString (string_of_list_byte data) with
      | None =>
          Responded status
            ("error", "value " +:+ string_of_list_byte data
                        +:+ " could not be converted to a big int") calls
      | Some value => Responded StatusOK ("data", pretty value) calls
      end
  end.

(** The three routes: ["/hex"], ["/string"] and ["/int"]. *)
Inductive Route : Type := RouteHex | RouteString | RouteInt.

Definition handle (route : Route) : Context -> Outcome FacadeCall :=
  match route with
  | RouteHex => GetVmValueAsHexBytes
  | RouteString => GetVmValueAsString
  | RouteInt => GetVmValueAsBigInt
  end.

Definition routePrefix (route : Route) : string :=
  match route with
  | RouteHex => "get vm value as hex bytes: "
  | RouteString => "get vm value as string: "
  | RouteInt => "get vm value as big int: "
  end.

Definition notHex (arg : string) : Prop :=
  exists err, GoHex.DecodeString arg = inl err.

Lemma decodeArgs_invalid args argsBuff :
  Exists notHex args ->
  exists arg err,
    arg ∈ args /\ GoHex.DecodeString arg = inl err /\
    decodeArgs args argsBuff
    = inl ("'" +:+ arg +:+ "' is not a valid hex string: " +:+ GoHex.ErrorText fmtU err).
Proof.
  revert argsBuff. induction args as [|arg rest IH]; intros argsBuff Hex.
  - by apply Exists_nil in Hex.
  - cbn [decodeArgs]. destruct (GoHex.DecodeString arg) as [err|buff] eqn:Harg.
    + exists arg, err. split_and!; [left|done|done].
    + apply Exists_cons in Hex as [[err Herr]|Hex]; [congruence|].
      destruct (IH (argsBuff ++ [buff]) Hex) as (arg' & err & Hin & Hdec & Heq).
      exists arg', err. split_and!; [by right|done|done].
Qed.

(** C10.  A vm-value request, on any of the three routes, that binds to a
    request one of whose arguments is not hexadecimal is answered with HTTP
    400 and an error that quotes an argument that is not hexadecimal (the
    first one), and the facade is not called. *)
Theorem vm_value_invalid_hex_argument route ef keys gval :
  keys !! "elrondProxyFacade" = Some (IsFacade ef) ->
  Exists notHex gval.(Args) ->
  exists arg err,
    arg ∈ gval.(Args) /\ GoHex.DecodeString arg = inl err /\
    handle route (mkContext keys (inr gval))
    = Responded StatusBadRequest
        ("error",
         routePrefix route +:+ "'" +:+ arg +:+ "' is not a valid hex string: "
           +:+ GoHex.ErrorText fmtU err)
        [].
Proof.
  intros Hfacade Hargs.
  destruct (decodeArgs_invalid gval.(Args) [] Hargs) as (arg & err & Hin & Hdec & Heq).
  exists arg, err. split_and!; [done|done|].
  assert (Hvm : forall resType,
    vmValueFromAccount (mkContext keys (inr gval)) resType
    = Some ([], StatusBadRequest,
            Some ("'" +:+ arg +:+ "' is not a valid hex string: " +:+ GoHex.ErrorText fmtU err),
            [])).
  { intros resType. unfold vmValueFromAccount. cbn [Keys BindJSON].
    by rewrite Hfacade, Heq. }
  destruct route; cbn [handle routePrefix];
    unfold GetVmValueAsHexBytes, GetVmValueAsString, GetVmValueAsBigInt;
    by rewrite Hvm.
Qed.

End Handlers.

End VmValues.

Module VmValuesScenarios.
Import Gin VmValues.

(** A facade that answers with its arguments, one after the other. *)
Definition echoFacade : FacadeHandler :=
  mkFacade (fun resType address funcName args => inr (concat args)).

(** A stand-in for the rendering of a byte by [%#U]. *)
Definition quoted (b : byte) : string := "'" +:+ string_of_list_byte [b] +:+ "'".

Definition keys : gmap string (Stored FacadeHandler) :=
  {[ "elrondProxyFacade" := IsFacade echoFacade ]}.

Definition badRequest : VmValueRequest := mkVmValueRequest "sc" "get" ["2d3132"; "3g"].

(** C10, witness: the second argument, [3g], is not hexadecimal. *)
Lemma vm_value_invalid_hex_argument_witness :
  keys !! "elrondProxyFacade" = Some (IsFacade echoFacade) /\
  Exists notHex badRequest.(Args) /\
  exists arg err,
    arg ∈ badRequest.(Args) /\ GoHex.DecodeString arg = inl err /\
    handle "invalid app context" quoted RouteInt (mkContext keys (inr badRequest))
    = Responded StatusBadRequest
        ("error",
         routePrefix RouteInt +:+ "'" +:+ arg +:+ "' is not a valid hex string: "
           +:+ GoHex.ErrorText quoted err)
        [].
Proof.
  assert (H1 : keys !! "elrondProxyFacade" = Some (IsFacade echoFacade))
    by apply lookup_singleton_eq.
  assert (H2 : Exists notHex badRequest.(Args)).
  { right. left. eexists. vm_compute. reflexivity. }
  split_and!; [exact H1|exact H2|].
  exact (vm_value_invalid_hex_argument "invalid app context" quoted RouteInt
           echoFacade keys badRequest H1 H2).
Defined.

Example vm_value_as_big_int :
  GetVmValueAsBigInt "invalid app context" quoted
    (mkContext keys (inr (mkVmValueRequest "sc" "get" ["2d3132"; "33"])))
  = Responded 200 ("data", "-123")
      [mkFacadeCall "int" "sc" "get" [list_byte_of_string "-12"; list_byte_of_string "3"]].
Proof. vm_compute. reflexivity. Qed.

Example vm_value_invalid_hex :
  GetVmValueAsString "invalid app context" quoted (mkContext keys (inr badRequest))
  = Responded 400
      ("error",
       "get vm value as string: '3g' is not a valid hex string: encoding/hex: invalid byte: 'g'")
      [].
Proof. vm_compute. reflexivity. Qed.

End VmValuesScenarios.

(** ** Transaction results: merging and parsing (modelled from the specification) *)

Module Results.

(** Modelled from the spec: the events of a transaction's logs (the package
    [transaction] of the core library is not among the sources); section 4.D
    names [Identifier], [Topics] and [Data]. *)
Record Events : Type := mkEvents {
  Identifier : string;
  Topics : list (list byte);
  Data : list byte
}.

Record ApiLogs : Type := mkApiLogs {
  LogsAddress : string;
  LogsEvents : list Events
}.

(** Modelled from the spec: a smart-contract result, with the fields of
    section 3, "SmartContractResult", and the [ReturnMessage] section 4.D
    reads. *)
Record ApiSmartContractResult : Type := mkScr {
  Hash : string;
  ScrNonce : Z;
  ScrValue : string;
  ScrSender : string;
  ScrReceiver : string;
  ScrData : string;
  ReturnMessage : string;
  OriginalTxHash : string;
  PrevTxHash : string;
  CallType : string;
  ScrLogs : option ApiLogs
}.

(** Modelled from the spec: [ApiTransactionResult { ScResults, Logs{Events},
    Sender }] of section 4.D. *)
Record ApiTransactionResult : Type := mkTxResult {
  ScResults : list ApiSmartContractResult;
  Logs : option ApiLogs;
  TxSender : string
}.

End Results.

Module ScrMerge.
Import Results.

(** Modelled from the spec: the merge of the smart-contract results of the
    two shards in [GetTransaction] with results (section 4.E.6, step 3:
    "Merge the two ScResults sequences by hash (union; deduplicate on equal
    hash)"; section 8, law 4: "set-union by hash").  The function of the
    processor that merges is not among the sources, only a test of it is.
    A set of results keyed by hash is a finite map from hashes to results;
    a sequence is indexed by entering its results under their hashes. *)
Definition byHash (results : list ApiSmartContractResult) : gmap string ApiSmartContractResult :=
  list_to_map ((fun r => (Hash r, r)) <$> results).

Definition mergeScResults (first second : list ApiSmartContractResult) :
  gmap string ApiSmartContractResult :=
  byHash first ∪ byHash second.

(** The [ScResults] sequence of the merged transaction: the results of the
    set, with no order of its own between the shards. *)
Definition scResults (merged : gmap string ApiSmartContractResult) : list ApiSmartContractResult :=
  (map_to_list merged).*2.














End ScrMerge.

Module ScrMergeScenarios.
Import Results ScrMerge.

Definition scRes (hash : string) : ApiSmartContractResult :=
  mkScr hash 0 "" "" "" "" "" "" "" "" None.

(** The results of the test
    [GetTransactionWithEventsFirstFromDstShardAndAfterSource]: the
    destination shard has the first and the second, the source shard the
    second and the third. *)
Definition fromDestination : list ApiSmartContractResult := [scRes "scHash1"; scRes "scHash2"].
Definition fromSource : list ApiSmartContractResult := [scRes "scHash2"; scRes "scHash3"].






Example merged_test_results :
  length (scResults (mergeScResults fromDestination fromSource)) = 3%nat /\
  length (scResults (mergeScResults fromSource fromDestination)) = 3%nat.
Proof. vm_compute. split; reflexivity. Qed.

End ScrMergeScenarios.

Module ResultsParser.
Import Results.

Inductive ReturnCode : Type :=
| Ok
| FunctionNotFound
| FunctionWrongSignature
| ContractNotFound
| UserError
| OutOfGas
| AccountCollision
| OutOfFunds
| CallStackOverflow
| ContractInvalid
| ExecutionFailed
| Unknown.

(** Modelled from the spec: the outcome of section 3, "Outcome (parser
    output)". *)
Record Outcome : Type := mkOutcome {
  outReturnCode : ReturnCode;
  outReturnMessage : string;
  outValues : list (list byte)
}.

(** Modelled from the spec: the status-word table of section 4.D. *)
Definition returnCodeOf (word : string) : ReturnCode :=
  if String.eqb word "ok" then Ok
  else if String.eqb word "function not found" then FunctionNotFound
  else if String.eqb word "wrong signature for function" then FunctionWrongSignature
  else if String.eqb word "contract not found" then ContractNotFound
  else if String.eqb word "user error" then UserError
  else if String.eqb word "out of gas" then OutOfGas
  else if String.eqb word "account collision" then AccountCollision
  else if String.eqb word "out of funds" then OutOfFunds
  else if String.eqb word "call stack overflow" then CallStackOverflow
  else if String.eqb word "contract invalid" then ContractInvalid
  else if String.eqb word "execution failed" then ExecutionFailed
  else Unknown.

Definition at_sign : byte := x40.

(** The chunks of [data] between the separators [@]. *)
Fixpoint splitChunks (data : list byte) : list (list byte) :=
  match data with
  | [] => [[]]
  | c :: rest =>
      if Byte.eqb c at_sign then [] :: splitChunks rest
      else match splitChunks rest with
           | chunk :: chunks => (c :: chunk) :: chunks
           | [] => [[c]]
           end
  end.

(** Modelled from the spec: return data is "[@] followed by a hex-encoded
    status word and optional [@]-separated hex chunks" (section 4.D, case
    1): the status token and the chunks after it, when [data] begins with
    [@]. *)
Definition sliceData (data : list byte) : option (list byte * list (list byte)) :=
  match splitChunks data with
  | [] :: status :: values => Some (status, values)
  | _ => None
  end.

(** The values of return data: the chunks after the status token. *)
Definition dataValues (data : list byte) : list (list byte) :=
  match sliceData data with
  | Some (_, values) => values
  | None => []
  end.

Section Parser.

(** Modelled from the spec: what counts as printable text.  Section 9 reads
    a topic as base64 "if it decodes cleanly and yields printable text" and
    does not say which bytes are printable text: the parser takes the test
    as given. *)
Variable printableText : list byte -> bool.

(** Modelled from the spec: "Topic bytes may be base64-encoded or raw; the
    parser accepts both (try base64 decode first; on failure use raw)"
    (section 4.D); "accept both, prefer base64 if it decodes cleanly and
    yields printable text" (section 9). *)
Definition topicBytes (topic : list byte) : list byte :=
  match GoBase64.Decode topic with
  | Some decoded => if printableText decoded then decoded else topic
  | None => topic
  end.

Definition firstTopic (event : Events) : list byte :=
  match event.(Topics) with
  | topic :: _ => topicBytes topic
  | [] => []
  end.

(** Modelled from the spec, case 1: the first contract result whose data
    is return data with a hex-encoded status word. *)
Fixpoint onEasilyFoundResultWithReturnData (results : list ApiSmartContractResult) :
  option Outcome :=
  match results with
  | [] => None
  | scr :: rest =>
      match sliceData (list_byte_of_string scr.(ScrData)) with
      | Some (status, values) =>
          match GoHex.Decode status with
          | inr word =>
              Some (mkOutcome (returnCodeOf (string_of_list_byte word)) scr.(ReturnMessage) values)
          | inl _ => onEasilyFoundResultWithReturnData rest
          end
      | None => onEasilyFoundResultWithReturnData rest
      end
  end.

Definition events (tx : ApiTransactionResult) : list Events :=
  match tx.(Logs) with
  | Some logs => logs.(LogsEvents)
  | None => []
  end.

Definition hasIdentifier (identifier : string) (event : Events) : bool :=
  String.eqb event.(Identifier) identifier.

(** Modelled from the spec, case 2: the first event [signalError]. *)
Definition onSignalError (tx : ApiTransactionResult) : option Outcome :=
  match List.find (hasIdentifier "signalError") (events tx) with
  | Some event =>
      Some (mkOutcome UserError (string_of_list_byte (firstTopic event)) (dataValues event.(Data)))
  | None => None
  end.

(** Modelled from the spec, case 3: a [writeLog] event whose first topic is
    the sender of the transaction. *)
Definition onWriteLogWhereFirstTopicEqualsAddress (tx : ApiTransactionResult) : option Outcome :=
  match List.find
          (fun event => hasIdentifier "writeLog" event
                        && String.eqb (string_of_list_byte (firstTopic event)) tx.(TxSender))
          (events tx) with
  | Some event => Some (mkOutcome Ok "" (dataValues event.(Data)))
  | None => None
  end.

Definition tooMuchGas : string := "@too much gas provided for processing".

(** Modelled from the spec, case 4: a [writeLog] event with a topic that
    starts with the warning of too much gas. *)
Definition onTooMuchGasWarning (tx : ApiTransactionResult) : option Outcome :=
  match List.find
          (fun event => hasIdentifier "writeLog" event
                        && String.prefix tooMuchGas (string_of_list_byte (firstTopic event)))
          (events tx) with
  | Some event => Some (mkOutcome Ok (string_of_list_byte (firstTopic event)) [])
  | None => None
  end.

(** Modelled from the spec: the parser of section 4.D, whose cases are
    tried in order, the first that matches giving the outcome; [None] is
    the null outcome of case 5.  (The parser itself is not among the
    sources; its tests are.) *)
Definition ParseResultOutcome (tx : ApiTransactionResult) : option Outcome :=
  match onEasilyFoundResultWithReturnData tx.(ScResults) with
  | Some outcome => Some outcome
  | None =>
      match onSignalError tx with
      | Some outcome => Some outcome
      | None =>
          match onWriteLogWhereFirstTopicEqualsAddress tx with
          | Some outcome => Some outcome
          | None => onTooMuchGasWarning tx
          end
      end
  end.


(** Return data made of a status token and values: [@status@v1@v2...]. *)
Fixpoint joinChunks (chunks : list (list byte)) : list byte :=
  match chunks with
  | [] => []
  | [chunk] => chunk
  | chunk :: rest => chunk ++ at_sign :: joinChunks rest
  end.

Definition returnData (status : list byte) (values : list (list byte)) : list byte :=
  at_sign :: joinChunks (status :: values).

Lemma splitChunks_cons_noAt c data :
  c <> at_sign ->
  splitChunks (c :: data) =
    match splitChunks data with
    | chunk :: chunks => (c :: chunk) :: chunks
    | [] => [[c]]
    end.
Proof.
  intros Hc. cbn [splitChunks]. destruct (Byte.eqb c at_sign) eqn:E; [|done].
  apply Byte.byte_dec_bl in E. done.
Qed.

Lemma splitChunks_app_noAt chunk data first rest :
  at_sign ∉ chunk ->
  splitChunks data = first :: rest ->
  splitChunks (chunk ++ data) = (chunk ++ first) :: rest.
Proof.
  intros Hno Hdata. induction chunk as [|c chunk IH]; [done|].
  cbn [app]. rewrite splitChunks_cons_noAt.
  - rewrite IH; [done|]. intros Hin. apply Hno. by right.
  - intros ->. apply Hno. left.
Qed.

Lemma splitChunks_joinChunks chunk chunks :
  Forall (fun c => at_sign ∉ c) (chunk :: chunks) ->
  splitChunks (joinChunks (chunk :: chunks)) = chunk :: chunks.
Proof.
  revert chunk. induction chunks as [|next chunks IH]; intros chunk Hall.
  - cbn [joinChunks]. apply Forall_cons in Hall as [Hno _].
    rewrite <- (app_nil_r chunk) at 1.
    rewrite (splitChunks_app_noAt chunk [] [] []); [by rewrite app_nil_r|done|done].
  - apply Forall_cons in Hall as [Hno Hrest].
    change (joinChunks (chunk :: next :: chunks))
      with (chunk ++ at_sign :: joinChunks (next :: chunks)).
    rewrite (splitChunks_app_noAt chunk _ [] (next :: chunks)); [by rewrite app_nil_r|done|].
    cbn [splitChunks]. rewrite (Byte.byte_dec_lb (eq_refl at_sign)). by rewrite IH.
Qed.

(** The values of return data are its chunks after the status token. *)
Lemma dataValues_returnData status values :
  Forall (fun c => at_sign ∉ c) (status :: values) ->
  dataValues (returnData status values) = values.
Proof.
  intros Hall. unfold dataValues, sliceData, returnData.
  cbn [splitChunks]. rewrite (Byte.byte_dec_lb (eq_refl at_sign)).
  by rewrite splitChunks_joinChunks.
Qed.

Lemma find_first {A : Type} (f : A -> bool) before x after :
  Forall (fun y => f y = false) before -> f x = true ->
  List.find f (before ++ x :: after) = Some x.
Proof.
  intros Hbefore Hx. induction Hbefore as [|y before Hy _ IH]; cbn [app List.find].
  - by rewrite Hx.
  - by rewrite Hy.
Qed.

(** C6, as amended.  When no contract result carries return data (case 1
    of the parser, which comes first, does not apply) and the logs hold an
    event whose identifier is [signalError], the outcome parsed is that of
    the first such event: the return code is [UserError]; the return
    message is the first topic of the event, read as bytes (the bytes the
    topic decodes to as base64 when it decodes to printable text, the bytes
    of the topic as they are otherwise); and the values are the chunks of
    the event's data between the separators [@] that come after the status
    token, the status token itself playing no part. *)
Theorem ParseResultOutcome_signalError tx before event after topic topics :
  onEasilyFoundResultWithReturnData tx.(ScResults) = None ->
  events tx = before ++ event :: after ->
  Forall (fun e => e.(Identifier) <> "signalError") before ->
  event.(Identifier) = "signalError" ->
  event.(Topics) = topic :: topics ->
  exists outcome,
    ParseResultOutcome tx = Some outcome /\
    outReturnCode outcome = UserError /\
    outReturnMessage outcome = string_of_list_byte (topicBytes topic) /\
    (forall decoded,
       GoBase64.Decode topic = Some decoded -> printableText decoded = true ->
       outReturnMessage outcome = string_of_list_byte decoded) /\
    (GoBase64.Decode topic = None -> outReturnMessage outcome = string_of_list_byte topic) /\
    (forall decoded,
       GoBase64.Decode topic = Some decoded -> printableText decoded = false ->
       outReturnMessage outcome = string_of_list_byte topic) /\
    outValues outcome = dataValues event.(Data) /\
    (forall status values,
       Forall (fun chunk => at_sign ∉ chunk) (status :: values) ->
       event.(Data) = returnData status values ->
       outValues outcome = values).
Proof.
  intros Hcase1 Hevents Hbefore Hid Htopics.
  exists (mkOutcome UserError (string_of_list_byte (topicBytes topic)) (dataValues event.(Data))).
  split_and!.
  - unfold ParseResultOutcome. rewrite Hcase1. unfold onSignalError.
    rewrite Hevents, (find_first _ before event after).
    + unfold firstTopic. by rewrite Htopics.
    + eapply Forall_impl; [exact Hbefore|]. intros e He. unfold hasIdentifier.
      by apply String.eqb_neq.
    + unfold hasIdentifier. rewrite Hid. reflexivity.
  - done.
  - done.
  - intros decoded Hdec Hprint. cbn [outReturnMessage]. unfold topicBytes.
    by rewrite Hdec, Hprint.
  - intros Hdec. cbn [outReturnMessage]. unfold topicBytes. by rewrite Hdec.
  - intros decoded Hdec Hprint. cbn [outReturnMessage]. unfold topicBytes.
    by rewrite Hdec, Hprint.
  - done.
  - intros status values Hall Hdata. cbn [outValues]. rewrite Hdata.
    by apply dataValues_returnData.
Qed.

End Parser.

End ResultsParser.

Module ParserScenarios.
Import Results ResultsParser.

Definition bytesOf (s : string) : list byte := list_byte_of_string s.

Definition scr (data returnMessage : string) : ApiSmartContractResult :=
  mkScr "" 42 "" "" "" data returnMessage "" "" "" None.

Definition logsOf (evs : list Events) : option ApiLogs :=
  Some (mkApiLogs "erd1qyu5wthldzr8wx5c9ucg8kjagg0jfs53s8nr3zpz3hypefsdd8ssycr6th" evs).

Definition signalError : Events :=
  mkEvents "signalError" [bytesOf "something happened"] (bytesOf "@75736572206572726f72@07").

(** Printable text, for the scenarios: the printable characters of ASCII,
    from the space to the tilde. *)
Definition printableASCII (text : list byte) : bool :=
  forallb (fun c => (32 <=? Byte.to_N c)%N && (Byte.to_N c <=? 126)%N) text.

Abbreviation parse := (ParseResultOutcome printableASCII).

(** The four cases of [TestResultsParser_ParseUntypedOutcome]. *)
Example parse_easily_found_result :
  parse (mkTxResult [scr "@6f6b@03" "foobar"] None "")
  = Some (mkOutcome Ok "foobar" [bytesOf "03"]).
Proof. vm_compute. reflexivity. Qed.

Example parse_signal_error :
  parse (mkTxResult [] (logsOf [signalError]) "")
  = Some (mkOutcome UserError "something happened" [bytesOf "07"]).
Proof. vm_compute. reflexivity. Qed.

Example parse_too_much_gas :
  parse
    (mkTxResult []
       (logsOf [mkEvents "writeLog"
                  [bytesOf "@too much gas provided for processing: gas provided = 596384500, gas used = 733010"]
                  (bytesOf "@6f6b")]) "")
  = Some (mkOutcome Ok
            "@too much gas provided for processing: gas provided = 596384500, gas used = 733010" []).
Proof. vm_compute. reflexivity. Qed.

Example parse_write_log_of_sender :
  parse
    (mkTxResult []
       (logsOf [mkEvents "writeLog"
                  [bytesOf "ZXJkMXF5dTV3dGhsZHpyOHd4NWM5dWNnOGtqYWdnMGpmczUzczhucjN6cHozaHlwZWZzZGQ4c3N5Y3I2dGg="]
                  (bytesOf "@6f6b=")])
       "erd1qyu5wthldzr8wx5c9ucg8kjagg0jfs53s8nr3zpz3hypefsdd8ssycr6th")
  = Some (mkOutcome Ok "" []).
Proof. vm_compute. reflexivity. Qed.

(** A topic that is base64 of printable text is decoded; a topic that is
    base64 of other bytes ([fail] decodes to the bytes 7d a8 a5) is taken
    as it is. *)
Example topic_base64_of_text :
  topicBytes printableASCII (bytesOf "dXNlciBlcnJvcg==") = bytesOf "user error".
Proof. vm_compute. reflexivity. Qed.

Example topic_base64_of_other_bytes :
  GoBase64.Decode (bytesOf "fail") = Some [x7d; xa8; xa5] /\
  topicBytes printableASCII (bytesOf "fail") = bytesOf "fail".
Proof. vm_compute. split; reflexivity. Qed.

(** A transaction with return data in a contract result and an event
    [signalError] in its logs. *)
Definition txBoth : ApiTransactionResult :=
  mkTxResult [scr "@6f6b@03" "foobar"] (logsOf [signalError]) "".

(** C6, counterexample.  The logs hold an event [signalError], and the
    outcome is the one of the contract result: case 1 comes first. *)
Lemma signalError_after_return_data :
  events txBoth = [signalError] /\
  signalError.(Identifier) = "signalError" /\
  parse txBoth = Some (mkOutcome Ok "foobar" [bytesOf "03"]) /\
  outReturnCode <$> parse txBoth <> Some UserError.
Proof. vm_compute. split_and!; [reflexivity..|discriminate]. Qed.

(** A transaction whose contract result carries no return data, and whose
    logs hold a [writeLog] event, then two [signalError] events: the first
    with a topic in base64, the second with a raw topic. *)
Definition transferLog : Events :=
  mkEvents "writeLog" [bytesOf "some other address"] (bytesOf "@6f6b").

Definition firstError : Events :=
  mkEvents "signalError" [bytesOf "dXNlciBlcnJvcg=="; bytesOf "second topic"]
    (bytesOf "@657865637574696f6e206661696c6564@07@2a").

Definition laterError : Events :=
  mkEvents "signalError" [bytesOf "something happened"] (bytesOf "@75736572206572726f72@08").

Definition txErrors : ApiTransactionResult :=
  mkTxResult [scr "transfer" ""] (logsOf [transferLog; firstError; laterError]) "".

(** C6, witness: the outcome is that of the first [signalError] event. *)
Lemma ParseResultOutcome_signalError_witness :
  onEasilyFoundResultWithReturnData txErrors.(ScResults) = None /\
  events txErrors = [transferLog] ++ firstError :: [laterError] /\
  Forall (fun e => e.(Identifier) <> "signalError") [transferLog] /\
  firstError.(Identifier) = "signalError" /\
  firstError.(Topics) = bytesOf "dXNlciBlcnJvcg==" :: [bytesOf "second topic"] /\
  parse txErrors = Some (mkOutcome UserError "user error" [bytesOf "07"; bytesOf "2a"]).
Proof.
  assert (H1 : onEasilyFoundResultWithReturnData txErrors.(ScResults) = None)
    by (vm_compute; reflexivity).
  assert (H2 : events txErrors = [transferLog] ++ firstError :: [laterError]) by reflexivity.
  assert (H3 : Forall (fun e => e.(Identifier) <> "signalError") [transferLog]).
  { constructor; [|constructor]. vm_compute. discriminate. }
  assert (H4 : firstError.(Identifier) = "signalError") by reflexivity.
  assert (H5 : firstError.(Topics) = bytesOf "dXNlciBlcnJvcg==" :: [bytesOf "second topic"])
    by reflexivity.
  do 5 (split; [assumption|]).
  destruct (ParseResultOutcome_signalError printableASCII txErrors [transferLog] firstError
              [laterError] (bytesOf "dXNlciBlcnJvcg==") [bytesOf "second topic"]
              H1 H2 H3 H4 H5)
    as (outcome & Hparse & Hcode & Hmessage & _ & _ & _ & Hvalues & _).
  rewrite Hparse. destruct outcome as [code message values]. cbn in Hcode, Hmessage, Hvalues.
  subst code message values. vm_compute. reflexivity.
Defined.

End ParserScenarios.

(** ** The views of the transaction pool (modelled from the specification) *)

Module Mempool.

Definition isEmptyPool (pool : TransactionsPool) : bool :=
  match pool.(RegularTransactions), pool.(SmartContractResults), pool.(Rewards) with
  | [], [], [] => true
  | _, _, _ => false
  end.

Definition appendPools (a b : TransactionsPool) : TransactionsPool :=
  mkTransactionsPool
    (a.(RegularTransactions) ++ b.(RegularTransactions))
    (a.(SmartContractResults) ++ b.(SmartContractResults))
    (a.(Rewards) ++ b.(Rewards)).

(** The paths of section 6. *)
Definition poolPath (fields : string) : string := "/transaction/pool?fields=" +:+ fields.
Definition poolForSenderPath (sender fields : string) : string :=
  "/transaction/pool?by-sender=" +:+ sender +:+ "&fields=" +:+ fields.
Definition lastNoncePath (sender : string) : string :=
  "/transaction/pool/last-nonce?by-sender=" +:+ sender.
Definition nonceGapsPath (sender : string) : string :=
  "/transaction/pool/nonce-gaps?by-sender=" +:+ sender.

Section Mempool.

(** Modelled from the spec: the mempool entry points of section 4.E.9, none
    of which is among the sources (their tests are).  The capabilities are
    those of the processor, with the feature flag "mempool-api"; a GET gives
    the HTTP status and the transport error apart (section 4.A).  The
    specification does not say what [GetLastPoolNonceForSender] returns
    when no observer answers: that error is a parameter. *)
Variable World : Type.
Variable mempoolApiEnabled : bool.
Variable Decode : string -> Error + list byte.
Variable ComputeShardId : list byte -> Error + Z.
Variable GetObservers : Z -> Error + list NodeData.
Variable GetShardIDs : list Z.
Variable CallGetRestEndPoint :
  string -> string -> World -> Z * option Error * ResponseBody * World.
Variable errNoAnswer : Error.

Definition get (address path : string) : Proc World (Z * option Error * ResponseBody) :=
  fun w =>
    let '(respCode, err, body, w') := CallGetRestEndPoint address path w in
    ((respCode, err, body), w', [mkExchange address path None (Some respCode) err body]).

(** The observers of a shard are asked in order; the first whose reply
    (HTTP 200, no transport error) [pick] accepts gives the result. *)
Fixpoint firstReply {A : Type} (pick : ResponseBody -> option A) (path : string)
  (observers : list NodeData) : Proc World (option A) :=
  match observers with
  | [] => ret None
  | observer :: rest =>
      do r <- get observer.(Address) path;
      let '(respCode, err, body) := r in
      if (respCode =? StatusOK) && isNil err then
        match pick body with
        | Some a => ret (Some a)
        | None => firstReply pick path rest
        end
      else firstReply pick path rest
  end.

Definition senderShardObservers (sender : string) : Error + list NodeData :=
  match Decode sender with
  | inl err => inl err
  | inr senderBuff =>
      match ComputeShardId senderBuff with
      | inl err => inl err
      | inr shardId => GetObservers shardId
      end
  end.

(** One observer per shard: for every shard, the first of its observers
    that answers; the pools that come back are concatenated. *)
Fixpoint poolOfShards (fields : string) (shardIDs : list Z) : Proc World TransactionsPool :=
  match shardIDs with
  | [] => ret emptyPool
  | shardID :: rest =>
      do pool <- match GetObservers shardID with
                 | inl _ => ret None
                 | inr observers =>
                     firstReply (fun body => Some body.(PoolTransactions)) (poolPath fields) observers
                 end;
      do pools <- poolOfShards fields rest;
      ret (appendPools (default emptyPool pool) pools)
  end.

Definition GetTransactionsPool (fields : string) :
  Proc World (option TransactionsPool * option Error) :=
  if negb mempoolApiEnabled then ret (None, Some ErrOperationNotAllowed)
  else
    do pool <- poolOfShards fields GetShardIDs;
    if isEmptyPool pool then ret (None, Some ErrTransactionsNotFoundInPool)
    else ret (Some pool, None).

Definition nonEmptyPool (body : ResponseBody) : option TransactionsPool :=
  if isEmptyPool body.(PoolTransactions) then None else Some body.(PoolTransactions).

Definition GetTransactionsPoolForShard (shardID : Z) (fields : string) :
  Proc World (option TransactionsPool * option Error) :=
  if negb mempoolApiEnabled then ret (None, Some ErrOperationNotAllowed)
  else
    match GetObservers shardID with
    | inl err => ret (None, Some err)
    | inr observers =>
        do pool <- firstReply nonEmptyPool (poolPath fields) observers;
        match pool with
        | Some p => ret (Some p, None)
        | None => ret (None, Some ErrTransactionsNotFoundInPool)
        end
    end.

Definition nonEmptyTxs (body : ResponseBody) : option (list WrappedTransaction) :=
  match body.(SenderTransactions) with [] => None | txs => Some txs end.

Definition GetTransactionsPoolForSender (sender fields : string) :
  Proc World (option (list WrappedTransaction) * option Error) :=
  if negb mempoolApiEnabled then ret (None, Some ErrOperationNotAllowed)
  else
    match senderShardObservers sender with
    | inl err => ret (None, Some err)
    | inr observers =>
        do txs <- firstReply nonEmptyTxs (poolForSenderPath sender fields) observers;
        match txs with
        | Some l => ret (Some l, None)
        | None => ret (None, Some ErrTransactionsNotFoundInPool)
        end
    end.

(** A last nonce of 0 is a reply like any other. *)
Definition GetLastPoolNonceForSender (sender : string) : Proc World (Z * option Error) :=
  if negb mempoolApiEnabled then ret (0, Some ErrOperationNotAllowed)
  else
    match senderShardObservers sender with
    | inl err => ret (0, Some err)
    | inr observers =>
        do nonce <- firstReply (fun body => Some body.(LastNonce)) (lastNoncePath sender) observers;
        match nonce with
        | Some n => ret (n, None)
        | None => ret (0, Some errNoAnswer)
        end
    end.

Definition nonEmptyGaps (body : ResponseBody) : option (list NonceGap) :=
  match body.(Gaps) with [] => None | gaps => Some gaps end.

Definition GetTransactionsPoolNonceGapsForSender (sender : string) :
  Proc World (option (list NonceGap) * option Error) :=
  if negb mempoolApiEnabled then ret (None, Some ErrOperationNotAllowed)
  else
    match senderShardObservers sender with
    | inl err => ret (None, Some err)
    | inr observers =>
        do gaps <- firstReply nonEmptyGaps (nonceGapsPath sender) observers;
        match gaps with
        | Some g => ret (Some g, None)
        | None => ret (None, Some ErrNonceGapsNotFoundInPool)
        end
    end.

End Mempool.

(** C7.  With the feature flag "mempool-api" disabled, each of the five
    mempool entry points ends with [ErrOperationNotAllowed], leaves the
    outside world as it was and has no exchange with any observer. *)
Theorem mempool_disabled_not_allowed (World : Type)
  (Decode : string -> Error + list byte) (ComputeShardId : list byte -> Error + Z)
  (GetObservers : Z -> Error + list NodeData) (GetShardIDs : list Z)
  (CallGetRestEndPoint : string -> string -> World -> Z * option Error * ResponseBody * World)
  (errNoAnswer : Error) (fields sender : string) (shardID : Z) (w : World) :
  GetTransactionsPool World false GetObservers GetShardIDs CallGetRestEndPoint fields w
    = (None, Some ErrOperationNotAllowed, w, []) /\
  GetTransactionsPoolForShard World false GetObservers CallGetRestEndPoint shardID fields w
    = (None, Some ErrOperationNotAllowed, w, []) /\
  GetTransactionsPoolForSender World false Decode ComputeShardId GetObservers
      CallGetRestEndPoint sender fields w
    = (None, Some ErrOperationNotAllowed, w, []) /\
  GetLastPoolNonceForSender World false Decode ComputeShardId GetObservers
      CallGetRestEndPoint errNoAnswer sender w
    = (0, Some ErrOperationNotAllowed, w, []) /\
  GetTransactionsPoolNonceGapsForSender World false Decode ComputeShardId GetObservers
      CallGetRestEndPoint sender w
    = (None, Some ErrOperationNotAllowed, w, []).
Proof.
  unfold GetTransactionsPool, GetTransactionsPoolForShard, GetTransactionsPoolForSender,
    GetLastPoolNonceForSender, GetTransactionsPoolNonceGapsForSender.
  cbn [negb]. unfold ret. split_and!; reflexivity.
Qed.

End Mempool.

Module MempoolScenarios.
Import Mempool.

Definition noCodec (s : string) : Error + list byte := inr (list_byte_of_string s).
Definition shard0 (addressBuff : list byte) : Error + Z := inr 0.

Definition wrapped (sender nonce hash : string) : WrappedTransaction :=
  [("sender", sender); ("nonce", nonce); ("hash", hash)].

Definition observersOf (shardId : Z) : Error + list NodeData :=
  if shardId =? 0 then inr [mkNodeData "observer0" 0]
  else if shardId =? 1 then inr [mkNodeData "observer1" 1]
  else if shardId =? 2 then inr [mkNodeData "observer2" 2]
  else inr [].

Definition poolBody (pool : TransactionsPool) : ResponseBody :=
  mkResponseBody "" 0 [] 0 "" pool [] 0 [].

Definition poolSh0 : TransactionsPool :=
  mkTransactionsPool [wrapped "61616161" "101" "hashRegularTxSh0"]
    [wrapped "61616161" "103" "hashSCRTxSh0"] [wrapped "61616161" "102" "hashRewardsTxSh0"].
Definition poolSh1 : TransactionsPool :=
  mkTransactionsPool [wrapped "62626262" "111" "hashRegularTxSh1"]
    [wrapped "61616161" "113" "hashSCRTxSh1"] [wrapped "62626262" "112" "hashRewardsTxSh1"].

(** The observers of the test "txs in 2 shards, but none in 3rd": the third
    answers with a bad gateway. *)
Definition getPools (address path : string) (w : unit) : Z * option Error * ResponseBody * unit :=
  if String.eqb address "observer0" then (200, None, poolBody poolSh0, tt)
  else if String.eqb address "observer1" then (200, None, poolBody poolSh1, tt)
  else (502, None, poolBody emptyPool, tt).

Example pool_of_two_shards :
  let r := GetTransactionsPool unit true observersOf [0; 1; 2] getPools "sender,nonce" tt in
  result r = (Some (appendPools poolSh0 poolSh1), None) /\
  map exAddress (trace r) = ["observer0"; "observer1"; "observer2"].
Proof. vm_compute. split; reflexivity. Qed.

Example pool_flag_not_enabled :
  GetTransactionsPool unit false observersOf [0; 1; 2] getPools "" tt
  = (None, Some ErrOperationNotAllowed, tt, []).
Proof. vm_compute. reflexivity. Qed.

(** The test "no txs in pool": empty views, and 0 as the last nonce. *)
Definition getNothing (address path : string) (w : unit) : Z * option Error * ResponseBody * unit :=
  (200, None, poolBody emptyPool, tt).

Example sender_views_of_an_empty_pool :
  result (GetTransactionsPoolForSender unit true noCodec shard0 observersOf getNothing
            "erd1" "sender,nonce" tt) = (None, Some ErrTransactionsNotFoundInPool) /\
  result (GetLastPoolNonceForSender unit true noCodec shard0 observersOf getNothing
            ErrSendingRequest "erd1" tt) = (0, None) /\
  result (GetTransactionsPoolNonceGapsForSender unit true noCodec shard0 observersOf getNothing
            "erd1" tt) = (None, Some ErrNonceGapsNotFoundInPool).
Proof. vm_compute. split_and!; reflexivity. Qed.

End MempoolScenarios.

(** ** More on the transaction processor: what its loops keep *)

Module ProcessLaws.
Import Process.

(** What an exchange adds to the total of [SendMultipleTransactions]: the
    count the observer gave when it accepted the batch, nothing otherwise. *)
Definition acceptedCount (ex : Exchange) : Z :=
  match exCode ex, exErr ex with
  | Some respCode, None => if respCode =? StatusOK then NumOfTxs (exBody ex) else 0
  | _, _ => 0
  end.

Definition sumAccepted (tr : list Exchange) : Z :=
  foldr (fun ex acc => acceptedCount ex + acc) 0 tr.

Section Laws.

Variable World : Type.
Variable Decode : string -> Error + list byte.
Variable ComputeShardId : list byte -> Error + Z.
Variable GetObservers : Z -> Error + list NodeData.
Variable GetAllObservers : list NodeData.
Variable CallPostRestEndPoint :
  string -> string -> PostValue -> World -> Z * option Error * ResponseBody * World.
Variable rangeMap : gmap Z (list Transaction) -> list (Z * list Transaction).
Hypothesis rangeMap_perm : forall m, rangeMap m ≡ₚ map_to_list m.

Abbreviation senderShard := (senderShard Decode ComputeShardId).
Abbreviation getTxsByShardId := (getTxsByShardId Decode ComputeShardId).
Abbreviation checkTransactionFields := (checkTransactionFields Decode).
Abbreviation validTxs := (validTxs Decode).
Abbreviation sendTxsInShard := (sendTxsInShard World CallPostRestEndPoint).
Abbreviation sendTxsByShardId := (sendTxsByShardId World GetObservers CallPostRestEndPoint).
Abbreviation SendMultipleTransactions :=
  (SendMultipleTransactions World Decode ComputeShardId GetObservers CallPostRestEndPoint rangeMap).
Abbreviation SendTransaction :=
  (SendTransaction World Decode ComputeShardId GetObservers CallPostRestEndPoint).

Lemma fold_addTx_lookup txs (m : gmap Z (list Transaction)) s :
  fold_left (addTx Decode ComputeShardId) txs m !! s =
    match filter (fun tx => senderShard tx = Some s) txs with
    | [] => m !! s
    | batch => Some (default [] (m !! s) ++ batch)
    end.
Proof.
  revert m. induction txs as [|tx txs IH]; intros m; [done|].
  cbn [fold_left]. rewrite IH, filter_cons. unfold addTx.
  destruct (senderShard tx) as [s'|] eqn:Htx.
  - destruct (decide (s' = s)) as [->|Hne].
    + rewrite decide_True by done. rewrite lookup_insert_eq. cbn [default]. unfold id.
      destruct (filter _ txs); [done|]. by rewrite <- app_assoc.
    + rewrite decide_False by congruence. by rewrite lookup_insert_ne.
  - by rewrite decide_False by congruence.
Qed.

(** X1.  [getTxsByShardId] partitions the transactions by the shard of
    their sender: the batch of a shard is the list of the transactions of
    that shard, in the order they came in, and a shard without transaction
    has no batch (so no batch is empty). *)
Theorem getTxsByShardId_partition txs s :
  getTxsByShardId txs !! s
  = nonEmpty (filter (fun tx => senderShard tx = Some s) txs).
Proof.
  rewrite getTxsByShardId_fold, fold_addTx_lookup, lookup_empty. cbn [default].
  by destruct (filter _ txs).
Qed.

Lemma uint64_add_l a b : uint64 (uint64 a + b) = uint64 (a + b).
Proof. unfold uint64. by rewrite Zplus_mod_idemp_l. Qed.

Lemma sumAccepted_app t1 t2 : sumAccepted (t1 ++ t2) = sumAccepted t1 + sumAccepted t2.
Proof. unfold sumAccepted. induction t1 as [|ex t1 IH]; cbn [app foldr]; lia. Qed.

Lemma sendTxsInShard_total txsInShard total observers w :
  let r := sendTxsInShard txsInShard total observers w in
  uint64 (result r) = uint64 (total + sumAccepted (trace r)).
Proof.
  revert w. induction observers as [|observer rest IH]; intros w.
  - cbn. by rewrite Z.add_0_r.
  - cbn [Process.sendTxsInShard]. unfold bind, post.
    destruct (CallPostRestEndPoint _ _ _ w) as [[[respCode err] body] w1].
    destruct ((respCode =? StatusOK) && isNil err) eqn:Hok.
    + apply andb_true_iff in Hok as [Hc He]. destruct err; [discriminate|].
      cbn. unfold acceptedCount. cbn. rewrite Hc. rewrite Z.add_0_r.
      unfold uint64. by rewrite Zmod_mod.
    + specialize (IH w1). cbv zeta in IH.
      destruct (sendTxsInShard txsInShard total rest w1) as [[res w2] tr].
      unfold trace, result in *. cbn [fst snd app] in *. rewrite IH.
      change (sumAccepted (?e :: tr)) with (acceptedCount e + sumAccepted tr).
      assert (Hzero : forall e, exCode e = Some respCode -> exErr e = err -> acceptedCount e = 0).
      { intros e Hc He. unfold acceptedCount. rewrite Hc, He.
        destruct err; [done|]. destruct (respCode =? StatusOK); [discriminate|done]. }
      rewrite Hzero by done. done.
Qed.

Lemma sendTxsByShardId_total total entries w :
  let r := sendTxsByShardId total entries w in
  result r = (0, Some ErrMissingObserver) \/
  ((result r).2 = None /\ uint64 (result r).1 = uint64 (total + sumAccepted (trace r))).
Proof.
  revert total w. induction entries as [|[shardId txsInShard] rest IH]; intros total w.
  - right. cbn. by rewrite Z.add_0_r.
  - cbn [Process.sendTxsByShardId]. destruct (GetObservers shardId) as [|observers]; [by left|].
    unfold bind.
    pose proof (sendTxsInShard_total txsInShard total observers w) as H1. cbv zeta in H1.
    destruct (sendTxsInShard txsInShard total observers w) as [[total1 w1] t1].
    specialize (IH total1 w1). cbv zeta in IH.
    destruct (sendTxsByShardId total1 rest w1) as [[res w2] t2].
    unfold trace, result in *. cbn [fst snd] in *.
    destruct IH as [->|[Herr Htot]]; [by left|]. right. split; [done|].
    rewrite Htot, sumAccepted_app, Z.add_assoc.
    rewrite <- (uint64_add_l (total + sumAccepted t1)), <- H1. by rewrite uint64_add_l.
Qed.

Lemma sendTxsInShard_range txsInShard total observers w :
  uint64 total = total ->
  uint64 (result (sendTxsInShard txsInShard total observers w))
  = result (sendTxsInShard txsInShard total observers w).
Proof.
  intros Htotal. revert w. induction observers as [|observer rest IH]; intros w; [done|].
  cbn [Process.sendTxsInShard]. unfold bind, post.
  destruct (CallPostRestEndPoint _ _ _ w) as [[[respCode err] body] w1].
  destruct ((respCode =? StatusOK) && isNil err).
  - cbn. unfold uint64. by rewrite Zmod_mod.
  - specialize (IH w1). destruct (sendTxsInShard txsInShard total rest w1) as [[res w2] tr]. done.
Qed.

Lemma sendTxsByShardId_range total entries w :
  uint64 total = total ->
  uint64 (result (sendTxsByShardId total entries w)).1
  = (result (sendTxsByShardId total entries w)).1.
Proof.
  revert total w. induction entries as [|[shardId txsInShard] rest IH]; intros total w Htotal;
    [done|].
  cbn [Process.sendTxsByShardId]. destruct (GetObservers shardId) as [|observers]; [done|].
  unfold bind.
  pose proof (sendTxsInShard_range txsInShard total observers w Htotal) as H1.
  destruct (sendTxsInShard txsInShard total observers w) as [[total1 w1] t1].
  specialize (IH total1 w1 H1).
  destruct (sendTxsByShardId total1 rest w1) as [[res w2] t2]. done.
Qed.

(** X2.  What [SendMultipleTransactions] returns is one of three things:
    the error [ErrNoValidTransactionToSend], no observer having been
    contacted; the error [ErrMissingObserver] with the count 0; or no error
    and, as the count, the sum (modulo 2^64) of the counts given by the
    observers that accepted a batch.  The exchanges summed over are the
    calls made: each carries what the REST client answered. *)
Theorem SendMultipleTransactions_count txs w :
  let r := SendMultipleTransactions txs w in
  answeredBy CallPostRestEndPoint w (trace r) (world r) /\
  ((result r = (0, Some ErrNoValidTransactionToSend) /\ trace r = []) \/
   result r = (0, Some ErrMissingObserver) \/
   result r = (uint64 (sumAccepted (trace r)), None)).
Proof.
  intros r. subst r.
  split; [apply (SendMultipleTransactions_answered World Decode ComputeShardId GetObservers
                   CallPostRestEndPoint rangeMap)|].
  unfold Process.SendMultipleTransactions.
  destruct (length (validTxs txs) =? 0)%nat; [by left|]. right.
  set (entries := rangeMap _).
  pose proof (sendTxsByShardId_total 0 entries w) as Htot.
  pose proof (sendTxsByShardId_range 0 entries w eq_refl) as Hrange.
  cbv zeta in Htot.
  destruct (sendTxsByShardId 0 entries w) as [[[total err] w1] tr].
  unfold trace, result in *. cbn [fst snd] in *.
  destruct Htot as [Htot|[-> Htot]]; [by left|]. right.
  by rewrite <- Hrange, Htot.
Qed.

End Laws.
End ProcessLaws.

(** ** The decision tables of the single-transaction calls *)

Module ProcessTables.
Import Process.

(** What a run [r] of the cost loop over the observers [eligible] looks
    like. *)
Definition costTable {World : Type} (tx : Transaction) (eligible : list NodeData)
  (r : string * option Error * World * list Exchange) : Prop :=
  exists contacted later,
    eligible = contacted ++ later /\
    map exAddress (trace r) = map Address contacted /\
    Forall (posted TransactionCostPath (PostTx tx)) (trace r) /\
    ((later = [] /\ Forall skipped (trace r) /\ result r = ("", Some ErrSendingRequest))
     \/
     (exists skips ex,
        trace r = skips ++ [ex] /\ Forall skipped skips /\
        ((accepted ex /\ result r = (pretty (int_of_uint64 (TxCost (exBody ex))), None))
         \/
         (~ accepted ex /\ ~ skipped ex /\ result r = ("", exErr ex))))).

Definition notMetachain (observer : NodeData) : Prop :=
  ShardId observer <> MetachainShardId.

Section Laws.

Variable World : Type.
Variable Decode : string -> Error + list byte.
Variable ComputeShardId : list byte -> Error + Z.
Variable GetObservers : Z -> Error + list NodeData.
Variable GetAllObservers : list NodeData.
Variable CallPostRestEndPoint :
  string -> string -> PostValue -> World -> Z * option Error * ResponseBody * World.
Variable rangeMap : gmap Z (list Transaction) -> list (Z * list Transaction).
Hypothesis rangeMap_perm : forall m, rangeMap m ≡ₚ map_to_list m.

Abbreviation checkTransactionFields := (checkTransactionFields Decode).
Abbreviation costFromObservers := (costFromObservers World CallPostRestEndPoint).
Abbreviation TransactionCostRequest :=
  (TransactionCostRequest World Decode GetAllObservers CallPostRestEndPoint).
Abbreviation SendTransaction :=
  (SendTransaction World Decode ComputeShardId GetObservers CallPostRestEndPoint).
Abbreviation sendToObservers := (sendToObservers World CallPostRestEndPoint).

Lemma costFromObservers_table tx observers w :
  costTable tx (filter notMetachain observers) (costFromObservers tx observers w).
Proof.
  unfold costTable. revert w. induction observers as [|observer rest IH]; intros w.
  - exists [], []. cbn. split_and!; [done..|]. left. by split_and!.
  - cbn [Process.costFromObservers]. rewrite filter_cons. unfold notMetachain at 1.
    destruct (Z.eqb_spec (ShardId observer) MetachainShardId) as [Hmeta|Hshard].
    { rewrite decide_False by (intros H; by apply H). apply IH. }
    rewrite decide_True by done. unfold bind, post.
    destruct (CallPostRestEndPoint (Address observer) TransactionCostPath (PostTx tx) w)
      as [[[respCode err] body] w1] eqn:Hcall.
    set (ex := mkExchange (Address observer) TransactionCostPath (Some (PostTx tx))
                 (Some respCode) err body).
    destruct ((respCode =? StatusOK) && isNil err) eqn:Hok.
    + apply andb_true_iff in Hok as [Hc He]. apply Z.eqb_eq in Hc.
      destruct err; [discriminate|]. subst respCode.
      exists [observer], (filter notMetachain rest). cbn.
      split_and!; [done|done|by repeat constructor|].
      right. exists [], ex. split_and!; [done|done|]. left. by split.
    + destruct ((respCode =? StatusNotFound) || (respCode =? StatusRequestTimeout)) eqn:Hskip.
      * specialize (IH w1).
        destruct (costFromObservers tx rest w1) as [[res w2] tr] eqn:Hrest.
        destruct IH as (contacted & later & Hobs & Haddr & Hposted & Hcases).
        unfold trace, result in *. cbn [fst snd] in *.
        assert (Hsk : skipped ex).
        { unfold skipped. cbn.
          apply orb_true_iff in Hskip as [H|H]; apply Z.eqb_eq in H; subst; auto. }
        exists (observer :: contacted), later. cbn. split_and!.
        { by rewrite Hobs. }
        { by rewrite Haddr. }
        { constructor; [by split|done]. }
        destruct Hcases as [(Hl & Hall & Hres)|(skips & ex' & Htr & Hall & Hres)].
        -- left. by split_and!; [|constructor|].
        -- right. exists (ex :: skips), ex'. rewrite Htr.
           split_and!; [done|by constructor|done].
      * exists [observer], (filter notMetachain rest). cbn.
        split_and!; [done|done|by repeat constructor|].
        right. exists [], ex. split_and!; [done|done|]. right.
        apply orb_false_iff in Hskip as [H1 H2]. apply Z.eqb_neq in H1, H2.
        split_and!.
        -- intros [Hc He]. cbn in Hc, He. injection Hc as ->. subst err.
           cbn in Hok. discriminate.
        -- intros [H|H]; cbn in H; injection H as ->; congruence.
        -- done.
Qed.

(** X3.  For a transaction that passes field validation,
    [TransactionCostRequest] goes through all observers but those of the
    metachain, in the order of the pool, and stops at the first that is not
    skipped (HTTP 404 or 408): an observer that accepts gives the cost,
    printed in decimal; any other answer ends the call with an empty cost
    and the error of that answer, which may be [nil]; when every observer
    was skipped the call ends with [ErrSendingRequest].  No observer of the
    metachain is contacted.  The exchanges are the calls made: each carries
    what the REST client answered, in the state the calls before it left. *)
Theorem TransactionCostRequest_table tx w :
  checkTransactionFields tx = None ->
  let r := TransactionCostRequest tx w in
  costTable tx (filter notMetachain GetAllObservers) r /\
  answeredBy CallPostRestEndPoint w (trace r) (world r).
Proof.
  intros Hvalid. unfold Process.TransactionCostRequest. rewrite Hvalid.
  split; [apply costFromObservers_table|apply costFromObservers_answered].
Qed.

(** X4.  [checkTransactionFields] accepts a transaction exactly when its
    sender and its receiver decode and its signature is hexadecimal; of the
    fields that fail, the first in that order is the one reported, with the
    error of its decoding as the reason. *)
Theorem checkTransactionFields_spec tx :
  (checkTransactionFields tx = None <->
     (exists b, Decode tx.(Sender) = inr b) /\
     (exists b, Decode tx.(Receiver) = inr b) /\
     (exists b, GoHex.DecodeString tx.(Signature) = inr b)) /\
  (forall err, Decode tx.(Sender) = inl err ->
     checkTransactionFields tx = Some (ErrInvalidTxFields ErrInvalidSenderAddress err)) /\
  (forall b err, Decode tx.(Sender) = inr b -> Decode tx.(Receiver) = inl err ->
     checkTransactionFields tx = Some (ErrInvalidTxFields ErrInvalidReceiverAddress err)) /\
  (forall b b' e, Decode tx.(Sender) = inr b -> Decode tx.(Receiver) = inr b' ->
     GoHex.DecodeString tx.(Signature) = inl e ->
     checkTransactionFields tx = Some (ErrInvalidTxFields ErrInvalidSignatureHex (HexError e))).
Proof.
  unfold Process.checkTransactionFields. split_and!.
  - destruct (Decode (Sender tx)) as [e1|b1].
    { split; [done|]. intros [[b Hb] _]. discriminate. }
    destruct (Decode (Receiver tx)) as [e2|b2].
    { split; [done|]. intros (_ & [b Hb] & _). discriminate. }
    destruct (GoHex.DecodeString (Signature tx)) as [e3|b3].
    { split; [done|]. intros (_ & _ & [b Hb]). discriminate. }
    split; [|done]. intros _. split_and!; eauto.
  - by intros err ->.
  - by intros b err -> ->.
  - by intros b b' e -> -> ->.
Qed.

(** X5.  [SendTransaction] gives a hash only together with success: either
    the last observer contacted accepted the transaction, and the call
    returns the status 200, the hash of that observer and no error; or the
    hash returned is empty, and the call does not return both the status 200
    and no error. *)
Theorem SendTransaction_hash_only_on_success tx w :
  let r := SendTransaction tx w in
  (exists ex, last (trace r) = Some ex /\ accepted ex /\
              result r = (StatusOK, TxHash (exBody ex), None))
  \/
  ((result r).1.2 = "" /\ ~ ((result r).1.1 = StatusOK /\ (result r).2 = None)).
Proof.
  intros r. subst r. unfold Process.SendTransaction.
  destruct (checkTransactionFields tx) as [err|].
  { right. cbn. split; [done|]. by intros [? ?]. }
  destruct (Decode (Sender tx)) as [err|senderBuff].
  { right. cbn. split; [done|]. by intros [? ?]. }
  destruct (ComputeShardId senderBuff) as [err|shardId].
  { right. cbn. split; [done|]. by intros [? ?]. }
  destruct (GetObservers shardId) as [err|observers].
  { right. cbn. split; [done|]. by intros [? ?]. }
  destruct (sendToObservers_table World CallPostRestEndPoint tx observers w)
    as (contacted & later & _ & _ & _ & Hcases).
  destruct (sendToObservers tx observers w) as [[res w1] tr].
  unfold trace, result in *. cbn [fst snd] in *.
  destruct Hcases as [(_ & _ & ->)|(skips & ex & -> & _ & [[Hacc ->]|(Hno & _ & respCode & Hcode & ->)])].
  - right. cbn. split; [done|]. by intros [? ?].
  - left. exists ex. by rewrite last_snoc.
  - right. cbn. split; [done|]. intros [-> Herr]. apply Hno. by split.
Qed.

End Laws.
End ProcessTables.

(** ** Runs of [SendMultipleTransactions]; the reconciliation of statuses *)

Module ProcessRuns.
Import Process.

(** In a log, a batch that an observer accepted is not posted again. *)
Fixpoint neverPostedAgain (tr : list Exchange) : Prop :=
  match tr with
  | [] => True
  | ex :: rest =>
      (accepted ex -> Forall (fun ex' => exValue ex' <> exValue ex) rest) /\
      neverPostedAgain rest
  end.

Section Laws.

Variable World : Type.
Variable Decode : string -> Error + list byte.
Variable ComputeShardId : list byte -> Error + Z.
Variable GetObservers : Z -> Error + list NodeData.
Variable CallPostRestEndPoint :
  string -> string -> PostValue -> World -> Z * option Error * ResponseBody * World.
Variable rangeMap : gmap Z (list Transaction) -> list (Z * list Transaction).
Hypothesis rangeMap_perm : forall m, rangeMap m ≡ₚ map_to_list m.

Abbreviation senderShard := (senderShard Decode ComputeShardId).
Abbreviation getTxsByShardId := (getTxsByShardId Decode ComputeShardId).
Abbreviation validTxs := (validTxs Decode).
Abbreviation sendTxsInShard := (sendTxsInShard World CallPostRestEndPoint).
Abbreviation sendTxsByShardId := (sendTxsByShardId World GetObservers CallPostRestEndPoint).
Abbreviation SendMultipleTransactions :=
  (SendMultipleTransactions World Decode ComputeShardId GetObservers CallPostRestEndPoint rangeMap).

Lemma sendTxsByShardId_missing total visited shardId txsInShard rest err w :
  Forall (fun entry => exists observers, GetObservers entry.1 = inr observers) visited ->
  GetObservers shardId = inl err ->
  let r := sendTxsByShardId total visited w in
  sendTxsByShardId total (visited ++ (shardId, txsInShard) :: rest) w
  = (0, Some ErrMissingObserver, world r, trace r).
Proof.
  intros Hvisited Hmissing. revert total w.
  induction Hvisited as [|[s batch] visited [observers Hobs] _ IH]; intros total w.
  - cbn. by rewrite Hmissing.
  - cbn [fst] in Hobs. cbn [app Process.sendTxsByShardId]. rewrite Hobs. unfold bind.
    destruct (sendTxsInShard batch total observers w) as [[total1 w1] t1].
    specialize (IH total1 w1). cbv zeta in IH. rewrite IH.
    by destruct (sendTxsByShardId total1 visited w1) as [[res w2] t2].
Qed.

(** X6.  When the range of [SendMultipleTransactions] comes to a shard whose
    observers are missing, the call ends with the count 0 and
    [ErrMissingObserver]; the batches of the shards visited before it were
    posted all the same (the exchanges and the state of the world are those
    of the loop over these shards), and what their observers accepted is not
    counted. *)
Theorem SendMultipleTransactions_missing_observer txs visited shardId txsInShard rest err w :
  validTxs txs <> [] ->
  rangeMap (getTxsByShardId (validTxs txs)) = visited ++ (shardId, txsInShard) :: rest ->
  Forall (fun entry => exists observers, GetObservers entry.1 = inr observers) visited ->
  GetObservers shardId = inl err ->
  let r := sendTxsByShardId 0 visited w in
  SendMultipleTransactions txs w = (0, Some ErrMissingObserver, world r, trace r).
Proof.
  intros Hvalid Hrange Hvisited Hmissing r. unfold Process.SendMultipleTransactions.
  destruct (validTxs txs) as [|tx valid] eqn:Hv; [done|]. cbn [length Nat.eqb].
  rewrite Hrange. by apply (sendTxsByShardId_missing 0 visited shardId txsInShard rest err).
Qed.

Lemma neverPostedAgain_app t1 t2 :
  neverPostedAgain t1 -> neverPostedAgain t2 ->
  (forall ex ex', ex ∈ t1 -> ex' ∈ t2 -> exValue ex' <> exValue ex) ->
  neverPostedAgain (t1 ++ t2).
Proof.
  intros H1 H2 Hcross. induction t1 as [|ex t1 IH]; [done|].
  cbn [app neverPostedAgain] in *. destruct H1 as [Hacc H1]. split.
  - intros Ha. apply Forall_app. split; [by apply Hacc|].
    apply Forall_forall. intros ex' Hex'. apply Hcross; [left|done].
  - apply IH; [done|]. intros e e' He He'. apply Hcross; [by right|done].
Qed.

Lemma sendTxsInShard_neverPostedAgain txsInShard total observers w :
  neverPostedAgain (trace (sendTxsInShard txsInShard total observers w)).
Proof.
  revert w. induction observers as [|observer rest IH]; intros w; [done|].
  cbn [Process.sendTxsInShard]. unfold bind, post.
  destruct (CallPostRestEndPoint _ _ _ w) as [[[respCode err] body] w1].
  destruct ((respCode =? StatusOK) && isNil err) eqn:Hok.
  - cbn. split; [by constructor|done].
  - specialize (IH w1). destruct (sendTxsInShard txsInShard total rest w1) as [[res w2] tr].
    cbn in *. split; [|done]. intros [Hc He]. cbn in Hc, He. injection Hc as ->. subst err.
    discriminate.
Qed.

Lemma sendTxsByShardId_neverPostedAgain total entries w :
  NoDup entries.*2 ->
  neverPostedAgain (trace (sendTxsByShardId total entries w)).
Proof.
  revert total w. induction entries as [|[shardId txsInShard] rest IH]; intros total w Hdup;
    [done|].
  cbn [fmap list_fmap snd] in Hdup. apply NoDup_cons in Hdup as [Hfresh Hdup].
  cbn [Process.sendTxsByShardId]. destruct (GetObservers shardId) as [|observers]; [done|].
  unfold bind.
  pose proof (sendTxsInShard_neverPostedAgain txsInShard total observers w) as H1.
  pose proof (sendTxsInShard_trace World CallPostRestEndPoint txsInShard total observers w) as Hv1.
  destruct (sendTxsInShard txsInShard total observers w) as [[total1 w1] t1].
  pose proof (IH total1 w1 Hdup) as H2.
  pose proof (sendTxsByShardId_trace World GetObservers CallPostRestEndPoint total1 rest w1) as Hv2.
  destruct (sendTxsByShardId total1 rest w1) as [[res w2] t2].
  unfold trace in *. cbn [snd] in *. apply neverPostedAgain_app; [done|done|].
  intros ex ex' Hex Hex'. rewrite Forall_forall in Hv1, Hv2.
  rewrite (Hv1 ex Hex). destruct (Hv2 ex' Hex') as (s & batch & Hin & ->).
  intros [= ->]. apply Hfresh. apply list_elem_of_fmap. by exists (s, txsInShard).
Qed.

Lemma getTxsByShardId_nonempty txs s batch :
  getTxsByShardId txs !! s = Some batch -> batch <> [].
Proof.
  rewrite getTxsByShardId_fold. intros Hl ->.
  assert (Hgen : forall l (m : gmap Z (list Transaction)),
            (forall s', m !! s' <> Some []) ->
            forall s', fold_left (addTx Decode ComputeShardId) l m !! s' <> Some []).
  { clear. induction l as [|tx l IH]; intros m Hm; [done|]. cbn [fold_left]. apply IH.
    intros s'. unfold addTx. destruct (Process.senderShard _ _ tx) as [s0|]; [|done].
    destruct (decide (s0 = s')) as [->|Hne].
    - rewrite lookup_insert_eq. intros [= H]. by apply app_eq_nil in H as [_ ?].
    - by rewrite lookup_insert_ne. }
  eapply Hgen; [|exact Hl]. intros s'. by rewrite lookup_empty.
Qed.

Lemma getTxsByShardId_batches_differ txs :
  NoDup (map_to_list (getTxsByShardId txs)).*2.
Proof.
  apply NoDup_fmap_2_strong; [|apply NoDup_map_to_list].
  intros [s1 b1] [s2 b2] H1%elem_of_map_to_list H2%elem_of_map_to_list Heq.
  cbn in Heq. subst b2. f_equal.
  destruct b1 as [|tx b1]; [by apply getTxsByShardId_nonempty in H1|].
  assert (Hs1 : senderShard tx = Some s1)
    by (eapply getTxsByShardId_routed; [exact H1|left]).
  assert (Hs2 : senderShard tx = Some s2)
    by (eapply getTxsByShardId_routed; [exact H2|left]).
  congruence.
Qed.

(** X7.  In a run of [SendMultipleTransactions], a batch that an observer
    accepted (HTTP 200, no transport error) is never posted again: no later
    exchange of the run carries it. *)
Theorem SendMultipleTransactions_never_posts_again txs w :
  neverPostedAgain (trace (SendMultipleTransactions txs w)).
Proof.
  unfold Process.SendMultipleTransactions.
  destruct (length (validTxs txs) =? 0)%nat; [done|].
  apply sendTxsByShardId_neverPostedAgain.
  rewrite (rangeMap_perm (getTxsByShardId (validTxs txs))).
  apply getTxsByShardId_batches_differ.
Qed.

(** X8.  [parseTxStatusResponses] never indexes an empty slice: it returns
    for every map of responses.  When it returns no error, the status is
    "unknown" or a status, other than "unknown", that is among the responses
    of some shard; its only error is [ErrCannotGetTransactionStatus], which
    comes with the empty status. *)
Theorem parseTxStatusResponses_sound (allResponses : gmap Z (list string)) :
  exists status err,
    parseTxStatusResponses allResponses = Some (status, err) /\
    (err = None ->
       status = UnknownStatusTx \/
       exists shardID responses,
         allResponses !! shardID = Some responses /\ status ∈ responses /\
         status <> UnknownStatusTx) /\
    (err <> None -> err = Some ErrCannotGetTransactionStatus /\ status = "").
Proof.
  unfold parseTxStatusResponses.
  set (ok := map_fold keepOkResponses ∅ allResponses).
  destruct (1 <? size ok)%nat.
  { eexists _, _. split; [done|]. split; [done|]. by intros _. }
  destruct (map_to_list ok) as [|[shardID responses] rest] eqn:Hlist.
  { eexists _, _. split; [done|]. split; [by left|done]. }
  assert (Hin : ok !! shardID = Some responses).
  { apply elem_of_map_to_list. rewrite Hlist. left. }
  subst ok. rewrite okResponses_lookup in Hin.
  destruct (allResponses !! shardID) as [all|] eqn:Hall; [|done]. cbn in Hin.
  destruct (filter (fun r => r <> UnknownStatusTx) all) as [|first others] eqn:Hfilter; [done|].
  injection Hin as <-.
  destruct (allEqualTo first (first :: others)).
  - eexists _, _. split; [done|]. split; [|done]. intros _. right.
    exists shardID, all. split; [done|].
    assert (Hf : first ∈ filter (fun r => r <> UnknownStatusTx) all) by (rewrite Hfilter; left).
    apply list_elem_of_filter in Hf as [? ?]. done.
  - eexists _, _. split; [done|]. split; [done|]. by intros _.
Qed.

End Laws.
End ProcessRuns.

(** ** Every batch of [SendMultipleTransactions] is posted *)

Module ProcessCoverage.
Import Process.
Section Laws.
Variable World : Type.
Variable Decode : string -> Error + list byte.
Variable ComputeShardId : list byte -> Error + Z.
Variable GetObservers : Z -> Error + list NodeData.
Variable CallPostRestEndPoint :
  string -> string -> PostValue -> World -> Z * option Error * ResponseBody * World.
Variable rangeMap : gmap Z (list Transaction) -> list (Z * list Transaction).
Hypothesis rangeMap_perm : forall m, rangeMap m ≡ₚ map_to_list m.

Abbreviation getTxsByShardId := (getTxsByShardId Decode ComputeShardId).
Abbreviation validTxs := (validTxs Decode).
Abbreviation sendTxsInShard := (sendTxsInShard World CallPostRestEndPoint).
Abbreviation sendTxsByShardId := (sendTxsByShardId World GetObservers CallPostRestEndPoint).
Abbreviation SendMultipleTransactions :=
  (SendMultipleTransactions World Decode ComputeShardId GetObservers CallPostRestEndPoint rangeMap).

Lemma sendTxsInShard_first_observer txsInShard total observer rest w :
  exists ex tr,
    trace (sendTxsInShard txsInShard total (observer :: rest) w) = ex :: tr /\
    exAddress ex = Address observer /\
    posted MultipleTransactionsPath (PostTxs txsInShard) ex.
Proof.
  cbn [Process.sendTxsInShard]. unfold bind, post.
  destruct (CallPostRestEndPoint _ _ _ w) as [[[respCode err] body] w1].
  destruct ((respCode =? StatusOK) && isNil err).
  - eexists _, _. by split_and!.
  - destruct (sendTxsInShard txsInShard total rest w1) as [[res w2] tr].
    eexists _, _. by split_and!.
Qed.

Lemma sendTxsByShardId_posts_all total entries w :
  (result (sendTxsByShardId total entries w)).2 = None ->
  forall shardId txsInShard observer rest,
    (shardId, txsInShard) ∈ entries ->
    GetObservers shardId = inr (observer :: rest) ->
    exists ex,
      ex ∈ trace (sendTxsByShardId total entries w) /\
      exAddress ex = Address observer /\
      posted MultipleTransactionsPath (PostTxs txsInShard) ex.
Proof.
  revert total w. induction entries as [|[s batch] entries IH]; intros total w Hok
    shardId txsInShard observer rest Hin Hobs.
  { by apply elem_of_nil in Hin. }
  cbn [Process.sendTxsByShardId] in *.
  destruct (GetObservers s) as [|observers] eqn:Hs; [done|]. unfold bind in *.
  pose proof (fun o r => sendTxsInShard_first_observer batch total o r w) as Hfirst.
  destruct (sendTxsInShard batch total observers w) as [[total1 w1] t1] eqn:Hshard.
  specialize (IH total1 w1).
  destruct (sendTxsByShardId total1 entries w1) as [[res w2] t2].
  unfold trace, result in *. cbn [fst snd] in *.
  apply elem_of_cons in Hin as [[= -> ->]|Hin].
  - rewrite Hs in Hobs. injection Hobs as ->.
    destruct (Hfirst observer rest) as (ex & tr & Htr & Haddr & Hposted).
    rewrite Hshard in Htr. cbn in Htr. subst t1.
    exists ex. split_and!; [left|done|done].
  - destruct (IH Hok shardId txsInShard observer rest Hin Hobs) as (ex & Hex & Haddr & Hposted).
    exists ex. split_and!; [|done|done]. apply elem_of_app. by right.
Qed.

(** X9.  When [SendMultipleTransactions] ends without error, no batch of
    the partition was forgotten: for every shard that has transactions and
    observers, the batch of the shard was posted to the first observer of
    the shard, at the path of multiple transactions; and the exchanges of
    the run are the calls made, each with what the REST client answered. *)
Theorem SendMultipleTransactions_posts_every_batch txs w shardId txsInShard observer rest :
  (result (SendMultipleTransactions txs w)).2 = None ->
  getTxsByShardId (validTxs txs) !! shardId = Some txsInShard ->
  GetObservers shardId = inr (observer :: rest) ->
  answeredBy CallPostRestEndPoint w (trace (SendMultipleTransactions txs w))
    (world (SendMultipleTransactions txs w)) /\
  exists ex,
    ex ∈ trace (SendMultipleTransactions txs w) /\
    exAddress ex = Address observer /\
    posted MultipleTransactionsPath (PostTxs txsInShard) ex.
Proof.
  intros Hok Hbatch Hobs.
  split; [apply (SendMultipleTransactions_answered World Decode ComputeShardId GetObservers
                   CallPostRestEndPoint rangeMap)|].
  revert Hok Hbatch Hobs.
  unfold Process.SendMultipleTransactions.
  destruct (length (validTxs txs) =? 0)%nat; [done|].
  intros Hok Hbatch Hobs.
  apply (sendTxsByShardId_posts_all _ _ _ Hok shardId txsInShard observer rest); [|done].
  rewrite rangeMap_perm. by apply elem_of_map_to_list.
Qed.

End Laws.
End ProcessCoverage.

(** ** Lookups of package [process]: a transaction by hash, the auction list *)

Module Lookups.
Import Process.

(** A GET made to an observer: the address and the path, what the variable
    the reply is decoded into held before the call and holds after it, and
    the status code (where the REST client gives one) and the error of the
    call. *)
Record Asked (Body : Type) : Type := mkAsked {
  askedAddress : string;
  askedPath : string;
  askedBefore : Body;
  askedCode : option Z;
  askedErr : option Error;
  askedAfter : Body
}.
Arguments mkAsked {Body}.
Arguments askedAddress {Body}.
Arguments askedPath {Body}.
Arguments askedBefore {Body}.
Arguments askedCode {Body}.
Arguments askedErr {Body}.
Arguments askedAfter {Body}.

Definition failed {Body : Type} (a : Asked Body) : Prop := askedErr a <> None.

(** The error of the last call of a log, [nil] for the empty log. *)
Definition lastErr {Body : Type} (log : list (Asked Body)) : option Error :=
  match last log with
  | Some a => askedErr a
  | None => None
  end.

(** Every call of the log found in the variable what the call before it
    left there, the first one finding [start]. *)
Fixpoint chained {Body : Type} (start : Body) (log : list (Asked Body)) : Prop :=
  match log with
  | [] => True
  | a :: rest => askedBefore a = start /\ chained (askedAfter a) rest
  end.

(** The errors of [getAuctionListFromApi]: its own, or one of the observer
    pool. *)
Inductive AuctionError : Type :=
| ErrAuctionListNotAvailable
| FromPool (err : Error).

Section GetTransaction.

(** [transaction.TxResponse] belongs to the node's packages: any type, with
    its zero value.  The REST client decodes the reply into the variable it
    is given. *)
Variable World : Type.
Variable TxResponse : Type.
Variable zeroTxResponse : TxResponse.
Variable GetAllObservers : list NodeData.
Variable CallGetRestEndPoint :
  string -> string -> TxResponse -> World -> option Error * TxResponse * World.

(** The loop of [GetTransaction]; [err] is the variable declared before the
    loop, and every turn starts from a fresh [txResponse]. *)
Fixpoint getFromObservers (txHash : string) (observers : list NodeData) (err : option Error)
  (w : World) : option TxResponse * option Error * World * list (Asked TxResponse) :=
  match observers with
  | [] => (None, err, w, [])
  | observer :: rest =>
      let path := TransactionPath +:+ txHash in
      let '(err', txResponse, w1) :=
        CallGetRestEndPoint observer.(Address) path zeroTxResponse w in
      let asked := mkAsked observer.(Address) path zeroTxResponse None err' txResponse in
      match err' with
      | Some _ =>
          let '(res, w2, log) := getFromObservers txHash rest err' w1 in
          (res, w2, asked :: log)
      | None => (Some txResponse, None, w1, [asked])
      end
  end.

Definition GetTransaction (txHash : string) (w : World) :
  option TxResponse * option Error * World * list (Asked TxResponse) :=
  getFromObservers txHash GetAllObservers None w.

(** The log holds the calls made from the state [w] on, and what the REST
    client answered: every entry carries the error the client gave, and
    the response as the client left it, for its address, its path and the
    response it was given, in the state the calls before it left; [w'] is
    the state after the last. *)
Fixpoint askedBy (w : World) (log : list (Asked TxResponse)) (w' : World) : Prop :=
  match log with
  | [] => w' = w
  | a :: rest =>
      exists w1,
        askedCode a = None /\
        CallGetRestEndPoint (askedAddress a) (askedPath a) (askedBefore a) w
          = (askedErr a, askedAfter a, w1) /\
        askedBy w1 rest w'
  end.

Lemma getFromObservers_asked txHash observers err w :
  let r := getFromObservers txHash observers err w in
  askedBy w r.2 r.1.2.
Proof.
  cbv zeta. revert err w. induction observers as [|observer rest IH]; intros err w; [done|].
  cbn [getFromObservers].
  destruct (CallGetRestEndPoint _ _ _ w) as [[err' txResponse] w1] eqn:Hcall.
  destruct err' as [e|].
  - specialize (IH (Some e) w1).
    destruct (getFromObservers txHash rest (Some e) w1) as [[res w2] log].
    exists w1. by split_and!.
  - exists w1. by split_and!.
Qed.

Lemma getFromObservers_table txHash observers err w :
  let r := getFromObservers txHash observers err w in
  exists contacted later,
    observers = contacted ++ later /\
    map askedAddress r.2 = map Address contacted /\
    Forall (fun a => askedPath a = TransactionPath +:+ txHash /\ askedBefore a = zeroTxResponse) r.2 /\
    ((later = [] /\ Forall failed r.2 /\
      r.1.1 = (None, match r.2 with [] => err | _ => lastErr r.2 end))
     \/
     (exists failures a,
        r.2 = failures ++ [a] /\ Forall failed failures /\ askedErr a = None /\
        r.1.1 = (Some (askedAfter a), None))).
Proof.
  revert err w. induction observers as [|observer rest IH]; intros err w.
  - exists [], []. cbn. split_and!; [done..|]. left. by split_and!.
  - cbn [getFromObservers].
    destruct (CallGetRestEndPoint _ _ _ w) as [[err' txResponse] w1].
    destruct err' as [e|].
    + specialize (IH (Some e) w1). cbv zeta in IH.
      destruct (getFromObservers txHash rest (Some e) w1) as [[res w2] log].
      cbn [fst snd] in *.
      destruct IH as (contacted & later & Hobs & Haddr & Hpath & Hcases).
      exists (observer :: contacted), later. cbn [map app askedAddress].
      split_and!; [by rewrite Hobs|by rewrite Haddr|by constructor|].
      destruct Hcases as [(Hl & Hall & Hres)|(failures & a & Hlog & Hall & Ha & Hres)].
      * left. split_and!; [done|by constructor|]. rewrite Hres. f_equal.
        destruct log as [|a log]; [done|]. unfold lastErr. by rewrite last_cons_cons.
      * right. exists (mkAsked (Address observer) (TransactionPath +:+ txHash) zeroTxResponse
                         None (Some e) txResponse :: failures), a.
        rewrite Hlog. split_and!; [done|by constructor|done|done].
    + exists [observer], rest. cbn. split_and!; [done|done|by repeat constructor|].
      right. eexists [], _. by split_and!.
Qed.

(** X10.  [GetTransaction] asks the observers in the order of the pool, each
    with a fresh response, and stops at the first call without error, whose
    response it returns with no error.  When every call failed it returns
    no response and the error of the last call; when there is no observer
    at all it returns no response and no error.  The log is that of the
    calls made: every entry carries what the REST client answered. *)
Theorem GetTransaction_first_answer txHash w :
  let r := GetTransaction txHash w in
  askedBy w r.2 r.1.2 /\
  exists contacted later,
    GetAllObservers = contacted ++ later /\
    map askedAddress r.2 = map Address contacted /\
    Forall (fun a => askedPath a = TransactionPath +:+ txHash /\ askedBefore a = zeroTxResponse) r.2 /\
    ((later = [] /\ Forall failed r.2 /\ r.1.1 = (None, lastErr r.2))
     \/
     (exists failures a,
        r.2 = failures ++ [a] /\ Forall failed failures /\ askedErr a = None /\
        r.1.1 = (Some (askedAfter a), None))).
Proof.
  intros r. subst r. unfold GetTransaction.
  split; [apply getFromObservers_asked|].
  destruct (getFromObservers_table txHash GetAllObservers None w)
    as (contacted & later & Hobs & Haddr & Hpath & Hcases).
  exists contacted, later. split_and!; [done..|].
  destruct Hcases as [(Hl & Hall & Hres)|Hright]; [left|by right].
  split_and!; [done..|]. rewrite Hres. f_equal.
  by destruct (getFromObservers txHash GetAllObservers None w).2.
Qed.

End GetTransaction.

Section AuctionList.

(** [data.AuctionListAPIResponse] and its field [Data] are declared outside
    the sources at hand, and so is the path of the auction list: any type
    with its zero value, any projection, any path.  Here the REST client
    gives the status code too. *)
Variable World : Type.
Variable AuctionListAPIResponse : Type.
Variable AuctionListResponse : Type.
Variable zeroResponse : AuctionListAPIResponse.
Variable Data : AuctionListAPIResponse -> AuctionListResponse.
Variable auctionListPath : string.
Variable GetObservers : Z -> Error + list NodeData.
Variable CallGetRestEndPoint :
  string -> string -> AuctionListAPIResponse -> World ->
  Z * option Error * AuctionListAPIResponse * World.

(** The loop of [getAuctionListFromApi]; [valStatsResponse] is declared
    before the loop, so every call decodes into what the calls before it
    left. *)
Fixpoint auctionFromObservers (observers : list NodeData)
  (valStatsResponse : AuctionListAPIResponse) (w : World) :
  option AuctionListResponse * option AuctionError * World
  * list (Asked AuctionListAPIResponse) :=
  match observers with
  | [] => (None, Some ErrAuctionListNotAvailable, w, [])
  | observer :: rest =>
      let '(respCode, err, valStatsResponse', w1) :=
        CallGetRestEndPoint observer.(Address) auctionListPath valStatsResponse w in
      let asked := mkAsked observer.(Address) auctionListPath valStatsResponse
                     (Some respCode) err valStatsResponse' in
      match err with
      | None => (Some (Data valStatsResponse'), None, w1, [asked])
      | Some _ =>
          let '(res, w2, log) := auctionFromObservers rest valStatsResponse' w1 in
          (res, w2, asked :: log)
      end
  end.

Definition getAuctionListFromApi (w : World) :
  option AuctionListResponse * option AuctionError * World
  * list (Asked AuctionListAPIResponse) :=
  match GetObservers MetachainShardId with
  | inl errFetchObs => (None, Some (FromPool errFetchObs), w, [])
  | inr observers => auctionFromObservers observers zeroResponse w
  end.

Definition GetAuctionList (w : World) := getAuctionListFromApi w.

(** The log holds the calls made from the state [w] on, and what the REST
    client answered: the status code, the error, and the response variable
    as the client left it. *)
Fixpoint askedWithCode (w : World) (log : list (Asked AuctionListAPIResponse)) (w' : World) :
  Prop :=
  match log with
  | [] => w' = w
  | a :: rest =>
      exists respCode w1,
        askedCode a = Some respCode /\
        CallGetRestEndPoint (askedAddress a) (askedPath a) (askedBefore a) w
          = (respCode, askedErr a, askedAfter a, w1) /\
        askedWithCode w1 rest w'
  end.

Lemma auctionFromObservers_asked observers start w :
  let r := auctionFromObservers observers start w in
  askedWithCode w r.2 r.1.2.
Proof.
  cbv zeta. revert start w. induction observers as [|observer rest IH]; intros start w; [done|].
  cbn [auctionFromObservers].
  destruct (CallGetRestEndPoint _ _ _ w) as [[[respCode err] after] w1] eqn:Hcall.
  destruct err as [e|].
  - specialize (IH after w1).
    destruct (auctionFromObservers rest after w1) as [[res w2] log].
    exists respCode, w1. by split_and!.
  - exists respCode, w1. by split_and!.
Qed.

Lemma auctionFromObservers_table observers start w :
  let r := auctionFromObservers observers start w in
  exists contacted later,
    observers = contacted ++ later /\
    map askedAddress r.2 = map Address contacted /\
    Forall (fun a => askedPath a = auctionListPath) r.2 /\
    chained start r.2 /\
    ((later = [] /\ Forall failed r.2 /\ r.1.1 = (None, Some ErrAuctionListNotAvailable))
     \/
     (exists failures a,
        r.2 = failures ++ [a] /\ Forall failed failures /\ askedErr a = None /\
        r.1.1 = (Some (Data (askedAfter a)), None))).
Proof.
  revert start w. induction observers as [|observer rest IH]; intros start w.
  - exists [], []. cbn. split_and!; [done..|]. left. by split_and!.
  - cbn [auctionFromObservers].
    destruct (CallGetRestEndPoint _ _ _ w) as [[[respCode err] after] w1].
    destruct err as [e|].
    + specialize (IH after w1). cbv zeta in IH.
      destruct (auctionFromObservers rest after w1) as [[res w2] log].
      cbn [fst snd] in *.
      destruct IH as (contacted & later & Hobs & Haddr & Hpath & Hchain & Hcases).
      exists (observer :: contacted), later. cbn [map app askedAddress].
      split_and!; [by rewrite Hobs|by rewrite Haddr|by constructor|by split|].
      destruct Hcases as [(Hl & Hall & Hres)|(failures & a & Hlog & Hall & Ha & Hres)].
      * left. split_and!; [done|by constructor|done].
      * right. exists (mkAsked (Address observer) auctionListPath start (Some respCode)
                         (Some e) after :: failures), a.
        rewrite Hlog. split_and!; [done|by constructor|done|done].
    + exists [observer], rest. cbn. split_and!; [done|done|by repeat constructor|done|done|].
      right. eexists [], _. by split_and!.
Qed.

(** X11.  [GetAuctionList] asks the observers of the metachain only, in the
    order of the pool, and stops at the first call without error, whatever
    its status code: it returns the data of the response variable as that
    call left it.  All calls decode into the one variable: each finds what
    the call before it left.  When every call failed the error is
    [ErrAuctionListNotAvailable]; when the pool gives no observers for the
    metachain, the error of the pool is returned and no observer is asked.
    The log is that of the calls made: every entry carries what the REST
    client answered. *)
Theorem GetAuctionList_first_answer w :
  let r := GetAuctionList w in
  match GetObservers MetachainShardId with
  | inl errFetchObs => r = (None, Some (FromPool errFetchObs), w, [])
  | inr observers =>
      askedWithCode w r.2 r.1.2 /\
      exists contacted later,
        observers = contacted ++ later /\
        map askedAddress r.2 = map Address contacted /\
        Forall (fun a => askedPath a = auctionListPath) r.2 /\
        chained zeroResponse r.2 /\
        ((later = [] /\ Forall failed r.2 /\ r.1.1 = (None, Some ErrAuctionListNotAvailable))
         \/
         (exists failures a,
            r.2 = failures ++ [a] /\ Forall failed failures /\ askedErr a = None /\
            r.1.1 = (Some (Data (askedAfter a)), None)))
  end.
Proof.
  intros r. subst r. unfold GetAuctionList, getAuctionListFromApi.
  destruct (GetObservers MetachainShardId) as [err|observers]; [done|].
  split; [apply auctionFromObservers_asked|apply auctionFromObservers_table].
Qed.

End AuctionList.

End Lookups.

(** ** More on the vm-value handlers *)

Module VmValuesLaws.
Import Gin VmValues.

Lemma hex_byte_round_trip (b : byte) :
  GoHex.fromHexChar (GoHex.hexDigit (Byte.to_N b / 16)) = Some (Byte.to_N b / 16)%N /\
  GoHex.fromHexChar (GoHex.hexDigit (Byte.to_N b mod 16)) = Some (Byte.to_N b mod 16)%N /\
  GoHex.byteOfN (16 * (Byte.to_N b / 16) + Byte.to_N b mod 16) = b.
Proof. destruct b; vm_compute; done. Qed.

Lemma hex_Decode_encode (src : list byte) :
  GoHex.Decode
    (flat_map (fun b => [GoHex.hexDigit (Byte.to_N b / 16); GoHex.hexDigit (Byte.to_N b mod 16)]%N)
       src) = inr src.
Proof.
  induction src as [|b src IH]; [done|].
  cbn [flat_map app GoHex.Decode].
  destruct (hex_byte_round_trip b) as (-> & -> & Hb). by rewrite IH, Hb.
Qed.

(** Decoding the hexadecimal text of bytes gives the bytes back. *)
Lemma hex_DecodeString_EncodeToString (src : list byte) :
  GoHex.DecodeString (GoHex.EncodeToString src) = inr src.
Proof.
  unfold GoHex.DecodeString, GoHex.EncodeToString.
  rewrite list_byte_of_string_of_list_byte. apply hex_Decode_encode.
Qed.

Definition isDigit (c : ascii) : Prop :=
  48 <= Z.of_N (N_of_ascii c) <= 57.

Lemma pretty_N_char_digit (d : N) :
  (d < 10)%N ->
  Z.of_N (N_of_ascii (pretty_N_char d)) = 48 + Z.of_N d.
Proof.
  intros Hd.
  destruct d as [|p]; [done|].
  do 4 (destruct p as [p|p|]; try done; try lia).
Qed.

Lemma parseDigits_pretty_N_go (x : N) :
  forall acc s, exists k : Z,
    0 <= k /\
    parseDigits acc (pretty_N_go x s) = parseDigits (acc * 10 ^ k + Z.of_N x) s.
Proof.
  induction x as [x IH] using (well_founded_ind N.lt_wf_0). intros acc s.
  destruct (decide (x = 0)%N) as [->|Hx].
  - exists 0. split; [done|]. rewrite pretty_N_go_0. f_equal. lia.
  - rewrite pretty_N_go_step by lia.
    assert (Hlt : (x `div` 10 < x)%N) by (apply N.div_lt; lia).
    destruct (IH _ Hlt acc (String (pretty_N_char (x `mod` 10)) s)) as (k & Hk & ->).
    exists (k + 1). split; [lia|]. cbn [parseDigits].
    assert (Hmod : (x `mod` 10 < 10)%N) by (apply N.mod_lt; lia).
    rewrite (pretty_N_char_digit _ Hmod).
    pose proof (N.div_mod x 10 ltac:(lia)) as Hdm.
    generalize dependent (x `mod` 10)%N. intros d Hd Hdm.
    assert (Hin : (48 <=? 48 + Z.of_N d) && (48 + Z.of_N d <=? 57) = true).
    { apply andb_true_iff. split; apply Z.leb_le; lia. }
    rewrite Hin. f_equal. rewrite Z.pow_add_r, Z.pow_1_r by lia.
    apply (f_equal Z.of_N) in Hdm. rewrite N2Z.inj_add, N2Z.inj_mul in Hdm.
    rewrite Hdm. change (Z.of_N 10) with 10. ring.
Qed.

Lemma pretty_N_go_head (x : N) :
  forall s, (0 < x)%N -> exists c rest, pretty_N_go x s = String c rest /\ isDigit c.
Proof.
  induction x as [x IH] using (well_founded_ind N.lt_wf_0). intros s Hx.
  rewrite pretty_N_go_step by done.
  destruct (decide (x `div` 10 = 0)%N) as [Hz|Hnz].
  - rewrite Hz, pretty_N_go_0. eexists _, _. split; [done|]. unfold isDigit.
    assert (Hmod : (x `mod` 10 < 10)%N) by (apply N.mod_lt; lia).
    rewrite (pretty_N_char_digit _ Hmod). revert Hmod. generalize (x `mod` 10)%N. lia.
  - apply IH; [apply N.div_lt; lia|by apply N.neq_0_lt_0].
Qed.

Lemma SetString_digits c rest :
  isDigit c -> SetString (String c rest) = parseDigits 0 (String c rest).
Proof.
  unfold isDigit, SetString. intros Hc.
  destruct (Ascii.eqb_spec c "-") as [->|_].
  { change (Z.of_N (N_of_ascii "-")) with 45 in Hc. lia. }
  destruct (Ascii.eqb_spec c "+") as [->|_].
  { change (Z.of_N (N_of_ascii "+")) with 43 in Hc. lia. }
  done.
Qed.

(** Reading the decimal text of an integer gives the integer back. *)
Lemma SetString_pretty (z : Z) : SetString (pretty z) = Some z.
Proof.
  destruct z as [|p|p].
  - done.
  - change (pretty (Z.pos p)) with (pretty_N_go (N.pos p) "").
    destruct (pretty_N_go_head (N.pos p) "" ltac:(lia)) as (c & rest & Heq & Hc).
    rewrite Heq, (SetString_digits _ _ Hc), <- Heq.
    destruct (parseDigits_pretty_N_go (N.pos p) 0 "") as (k & _ & ->). done.
  - change (pretty (Z.neg p)) with ("-" +:+ pretty_N_go (N.pos p) "").
    destruct (pretty_N_go_head (N.pos p) "" ltac:(lia)) as (c & rest & Heq & Hc).
    rewrite Heq.
    change (SetString ("-" +:+ String c rest)) with (Z.opp <$> parseDigits 0 (String c rest)).
    rewrite <- Heq.
    destruct (parseDigits_pretty_N_go (N.pos p) 0 "") as (k & _ & ->). done.
Qed.

Section Laws.

Variable invalidAppContext : string.
Variable fmtU : byte -> string.

Abbreviation decodeArgs := (decodeArgs fmtU).
Abbreviation vmValueFromAccount := (vmValueFromAccount invalidAppContext fmtU).
Abbreviation GetVmValueAsHexBytes := (GetVmValueAsHexBytes invalidAppContext fmtU).
Abbreviation GetVmValueAsBigInt := (GetVmValueAsBigInt invalidAppContext fmtU).

(** Text of ASCII characters only: every byte is below 128. *)
Definition asciiText (text : list byte) : Prop :=
  Forall (fun b => (Byte.to_N b < 128)%N) text.

(** The arguments [args] are hexadecimal, and [argsBuff] are their bytes. *)
Definition decodeTo (args : list string) (argsBuff : list (list byte)) : Prop :=
  Forall2 (fun arg buff => GoHex.DecodeString arg = inr buff) args argsBuff.

Lemma decodeArgs_valid args argsBuff done :
  decodeTo args argsBuff -> decodeArgs args done = inr (done ++ argsBuff).
Proof.
  intros Hall. revert done. induction Hall as [|arg buff args argsBuff Harg _ IH]; intros done.
  - by rewrite app_nil_r.
  - cbn [VmValues.decodeArgs]. rewrite Harg, IH. by rewrite <- app_assoc.
Qed.

Lemma vmValueFromAccount_served resType ef keys gval argsBuff :
  keys !! "elrondProxyFacade" = Some (IsFacade ef) ->
  decodeTo gval.(Args) argsBuff ->
  vmValueFromAccount (mkContext keys (inr gval)) resType
  = let call := mkFacadeCall resType gval.(ScAddress) gval.(FuncName) argsBuff in
    match ef.(GetVmValue) resType gval.(ScAddress) gval.(FuncName) argsBuff with
    | inl err => Some ([], StatusBadRequest, Some err, [call])
    | inr returnedData => Some (returnedData, StatusOK, None, [call])
    end.
Proof.
  intros Hfacade Hargs. unfold VmValues.vmValueFromAccount. cbn [Keys BindJSON].
  by rewrite Hfacade, (decodeArgs_valid _ _ [] Hargs).
Qed.

(** X12.  For a request all of whose arguments are hexadecimal,
    [vmValueFromAccount] calls the facade once, with the result type of the
    route, the address and the function of the request, and the bytes of
    the arguments in the order of the request; an error of the facade comes
    back with HTTP 400, its data with HTTP 200. *)
Theorem vmValueFromAccount_calls_facade_once resType ef keys gval argsBuff :
  keys !! "elrondProxyFacade" = Some (IsFacade ef) ->
  decodeTo gval.(Args) argsBuff ->
  exists data status err,
    vmValueFromAccount (mkContext keys (inr gval)) resType
    = Some (data, status, err,
            [mkFacadeCall resType gval.(ScAddress) gval.(FuncName) argsBuff]) /\
    match ef.(GetVmValue) resType gval.(ScAddress) gval.(FuncName) argsBuff with
    | inl facadeErr => data = [] /\ status = StatusBadRequest /\ err = Some facadeErr
    | inr returnedData => data = returnedData /\ status = StatusOK /\ err = None
    end.
Proof.
  intros Hfacade Hargs. rewrite (vmValueFromAccount_served _ _ _ _ _ Hfacade Hargs).
  cbv zeta. destruct (GetVmValue ef _ _ _ _) as [facadeErr|returnedData];
    eexists _, _, _; by split_and!.
Qed.

(** X13.  On the route [/hex], the text given for the data of the facade
    decodes, as hexadecimal, to that data. *)
Theorem GetVmValueAsHexBytes_round_trip ef keys gval argsBuff returnedData :
  keys !! "elrondProxyFacade" = Some (IsFacade ef) ->
  decodeTo gval.(Args) argsBuff ->
  ef.(GetVmValue) "hex" gval.(ScAddress) gval.(FuncName) argsBuff = inr returnedData ->
  exists text,
    GetVmValueAsHexBytes (mkContext keys (inr gval))
    = Responded StatusOK ("data", text)
        [mkFacadeCall "hex" gval.(ScAddress) gval.(FuncName) argsBuff] /\
    GoHex.DecodeString text = inr returnedData.
Proof.
  intros Hfacade Hargs Hdata. unfold VmValues.GetVmValueAsHexBytes.
  rewrite (vmValueFromAccount_served _ _ _ _ _ Hfacade Hargs). cbv zeta. rewrite Hdata.
  eexists. split; [done|]. apply hex_DecodeString_EncodeToString.
Qed.

(** X14.  On the route [/int], data of the facade that is ASCII text but
    not the decimal text of an integer is answered with HTTP 200, though
    the body is an error that quotes the data.  (The handler gives
    [c.JSON] the string of the data whatever its bytes are; for ASCII text
    the reply written carries that string as it is, while bytes that are
    not UTF-8 would be replaced when the reply is written.) *)
Theorem GetVmValueAsBigInt_not_a_number ef keys gval argsBuff returnedData :
  keys !! "elrondProxyFacade" = Some (IsFacade ef) ->
  decodeTo gval.(Args) argsBuff ->
  ef.(GetVmValue) "int" gval.(ScAddress) gval.(FuncName) argsBuff = inr returnedData ->
  asciiText returnedData ->
  SetString (string_of_list_byte returnedData) = None ->
  GetVmValueAsBigInt (mkContext keys (inr gval))
  = Responded StatusOK
      ("error", "value " +:+ string_of_list_byte returnedData
                  +:+ " could not be converted to a big int")
      [mkFacadeCall "int" gval.(ScAddress) gval.(FuncName) argsBuff].
Proof.
  intros Hfacade Hargs Hdata _ Hnan. unfold VmValues.GetVmValueAsBigInt.
  rewrite (vmValueFromAccount_served _ _ _ _ _ Hfacade Hargs). cbv zeta.
  by rewrite Hdata, Hnan.
Qed.

(** X15.  On the route [/int], when the data of the facade is the decimal
    text of an integer, the reply is HTTP 200 with that same text. *)
Theorem GetVmValueAsBigInt_round_trip ef keys gval argsBuff (z : Z) :
  keys !! "elrondProxyFacade" = Some (IsFacade ef) ->
  decodeTo gval.(Args) argsBuff ->
  ef.(GetVmValue) "int" gval.(ScAddress) gval.(FuncName) argsBuff
    = inr (list_byte_of_string (pretty z)) ->
  GetVmValueAsBigInt (mkContext keys (inr gval))
  = Responded StatusOK ("data", pretty z)
      [mkFacadeCall "int" gval.(ScAddress) gval.(FuncName) argsBuff].
Proof.
  intros Hfacade Hargs Hdata. unfold VmValues.GetVmValueAsBigInt.
  rewrite (vmValueFromAccount_served _ _ _ _ _ Hfacade Hargs). cbv zeta.
  by rewrite Hdata, string_of_list_byte_of_string, SetString_pretty.
Qed.

End Laws.
End VmValuesLaws.

(** ** The account handlers of package [api/address] *)

Module AccountApi.

(** The methods of [FacadeHandler] that the account handlers call, each
    giving its value and its error as Go does (a nil pointer is [None], a nil
    slice the empty list; an error is known by its text).  [data.Account]
    and [data.DatabaseTransaction] are declared outside the sources at hand:
    any types. *)
Record FacadeHandler (Account DatabaseTransaction : Type) : Type := mkFacade {
  FacadeGetAccount : string -> option Account * option string;
  FacadeGetTransactions : string -> list DatabaseTransaction * option string
}.
Arguments mkFacade {Account DatabaseTransaction}.
Arguments FacadeGetAccount {Account DatabaseTransaction}.
Arguments FacadeGetTransactions {Account DatabaseTransaction}.

Inductive FacadeCall : Type :=
| CallGetAccount (address : string)
| CallGetTransactions (address : string).

(** The value of the one entry of a reply [gin.H{key: value}]. *)
Inductive Value (Account DatabaseTransaction BalanceT NonceT : Type) : Type :=
| VError (text : string)
| VAccount (account : option Account)
| VBalance (balance : BalanceT)
| VNonce (nonce : NonceT)
| VTransactions (transactions : list DatabaseTransaction).
Arguments VError {Account DatabaseTransaction BalanceT NonceT}.
Arguments VAccount {Account DatabaseTransaction BalanceT NonceT}.
Arguments VBalance {Account DatabaseTransaction BalanceT NonceT}.
Arguments VNonce {Account DatabaseTransaction BalanceT NonceT}.
Arguments VTransactions {Account DatabaseTransaction BalanceT NonceT}.

(** What a handler does: one JSON reply with its status, after some calls
    to the facade, or a panic ([c.MustGet] on a missing key, a field read
    through a nil pointer). *)
Inductive Reply (V : Type) : Type :=
| Replied (status : Z) (key : string) (value : V) (calls : list FacadeCall)
| Panics.
Arguments Replied {V}.
Arguments Panics {V}.

Section Handlers.

Variable Account : Type.
Variable DatabaseTransaction : Type.
Variable BalanceT : Type.
Variable NonceT : Type.
Variable Balance : Account -> BalanceT.
Variable Nonce : Account -> NonceT.
Variable invalidAppContext : string.

Abbreviation Facade := (FacadeHandler Account DatabaseTransaction).
Abbreviation V := (Value Account DatabaseTransaction BalanceT NonceT).

Record Context : Type := mkContext {
  Keys : gmap string (Gin.Stored Facade);
  Params : list (string * string)
}.

(** [getAccount]: the account, the status, the error and the calls made;
    [None] is the panic of [c.MustGet]. *)
Definition getAccount (c : Context) :
  option (option Account * Z * option string * list FacadeCall) :=
  match c.(Keys) !! "elrondProxyFacade" with
  | None => None
  | Some Gin.NotFacade => Some (None, StatusInternalServerError, Some invalidAppContext, [])
  | Some (Gin.IsFacade epf) =>
      let addr := Gin.Param c.(Params) "address" in
      match epf.(FacadeGetAccount) addr with
      | (_, Some err) => Some (None, StatusInternalServerError, Some err, [CallGetAccount addr])
      | (acc, None) => Some (acc, StatusOK, None, [CallGetAccount addr])
      end
  end.

Definition getTransactions (c : Context) :
  option (list DatabaseTransaction * Z * option string * list FacadeCall) :=
  match c.(Keys) !! "elrondProxyFacade" with
  | None => None
  | Some Gin.NotFacade => Some ([], StatusInternalServerError, Some invalidAppContext, [])
  | Some (Gin.IsFacade epf) =>
      let addr := Gin.Param c.(Params) "address" in
      match epf.(FacadeGetTransactions) addr with
      | (_, Some err) =>
          Some ([], StatusInternalServerError, Some err, [CallGetTransactions addr])
      | (transactions, None) =>
          Some (transactions, StatusOK, None, [CallGetTransactions addr])
      end
  end.

Definition GetAccount (c : Context) : Reply V :=
  match getAccount c with
  | None => Panics
  | Some (_, status, Some err, calls) => Replied status "error" (VError err) calls
  | Some (account, _, None, calls) => Replied StatusOK "account" (VAccount account) calls
  end.

(** [account.Balance] reads through the pointer: a nil account panics. *)
Definition GetBalance (c : Context) : Reply V :=
  match getAccount c with
  | None => Panics
  | Some (_, status, Some err, calls) => Replied status "error" (VError err) calls
  | Some (Some account, _, None, calls) =>
      Replied StatusOK "balance" (VBalance (Balance account)) calls
  | Some (None, _, None, _) => Panics
  end.

Definition GetNonce (c : Context) : Reply V :=
  match getAccount c with
  | None => Panics
  | Some (_, status, Some err, calls) => Replied status "error" (VError err) calls
  | Some (Some account, _, None, calls) =>
      Replied StatusOK "nonce" (VNonce (Nonce account)) calls
  | Some (None, _, None, _) => Panics
  end.

Definition GetTransactions (c : Context) : Reply V :=
  match getTransactions c with
  | None => Panics
  | Some (_, status, Some err, calls) => Replied status "error" (VError err) calls
  | Some (transactions, _, None, calls) =>
      Replied StatusOK "transactions" (VTransactions transactions) calls
  end.

(** X16.  [GetBalance] and [GetNonce] follow [GetAccount] on every context:
    they panic when it panics, give its error reply (always status 500)
    unchanged, and where it shows an account after one call of the facade
    with the address parameter as it stands (empty or not), they show the
    balance and the nonce of that same account after the same call.  Where
    the facade gives neither an account nor an error, [GetAccount] replies
    200 with a null account and the other two panic. *)
Theorem account_handlers_agree (c : Context) :
  match GetAccount c with
  | Panics => GetBalance c = Panics /\ GetNonce c = Panics
  | Replied status key (VError text) calls =>
      status = StatusInternalServerError /\ key = "error" /\
      (calls = [] \/ calls = [CallGetAccount (Gin.Param c.(Params) "address")]) /\
      GetBalance c = Replied status key (VError text) calls /\
      GetNonce c = Replied status key (VError text) calls
  | Replied status key (VAccount (Some account)) calls =>
      status = StatusOK /\ key = "account" /\
      calls = [CallGetAccount (Gin.Param c.(Params) "address")] /\
      GetBalance c = Replied StatusOK "balance" (VBalance (Balance account)) calls /\
      GetNonce c = Replied StatusOK "nonce" (VNonce (Nonce account)) calls
  | Replied status key (VAccount None) calls =>
      status = StatusOK /\ GetBalance c = Panics /\ GetNonce c = Panics
  | Replied _ _ _ _ => False
  end.
Proof.
  unfold GetAccount, GetBalance, GetNonce, getAccount.
  destruct (Keys c !! "elrondProxyFacade") as [[epf|]|]; [|by split_and!; try left|done].
  cbv zeta. destruct (FacadeGetAccount epf _) as [[account|] [err|]];
    split_and!; try done; by right.
Qed.

End Handlers.
End AccountApi.

(** ** Scenarios for the laws of the transaction processor *)

Module LawsScenarios.
Import Process ProcessScenarios.

Definition txShard0 : Transaction := withSender sndrShard0.
Definition txShard1 : Transaction := withSender sndrShard1.

(** A pool with an observer of the metachain first; of the two others, the
    first is down and the second gives a cost. *)
Definition observersCost : list NodeData :=
  [mkNodeData "meta" MetachainShardId; mkNodeData "address1" 0; mkNodeData "address2" 1].

Definition postCost (address path : string) (value : PostValue) (w : unit) :=
  if String.eqb address "address1" then reply 404 (Some (External "not found")) emptyBody
  else reply 200 None (txBody "" 0 [] 1000 "").

(** X3, witness: the observer of the metachain is left out, the first of
    the others is skipped and the second gives the cost. *)
Lemma TransactionCostRequest_table_witness :
  checkTransactionFields hexCodec txShard0 = None /\
  let r := TransactionCostRequest unit hexCodec observersCost postCost txShard0 tt in
  ProcessTables.costTable txShard0 (filter ProcessTables.notMetachain observersCost) r /\
  answeredBy postCost tt (trace r) (world r).
Proof.
  assert (H : checkTransactionFields hexCodec txShard0 = None) by (vm_compute; reflexivity).
  split; [exact H|].
  exact (ProcessTables.TransactionCostRequest_table unit hexCodec observersCost postCost
           txShard0 tt H).
Defined.

Example TransactionCostRequest_cost :
  TransactionCostRequest unit hexCodec observersCost postCost txShard0 tt
  = ("1000", None, tt,
     [mkExchange "address1" TransactionCostPath (Some (PostTx txShard0)) (Some 404)
        (Some (External "not found")) emptyBody;
      mkExchange "address2" TransactionCostPath (Some (PostTx txShard0)) (Some 200)
        None (txBody "" 0 [] 1000 "")]).
Proof. vm_compute. reflexivity. Qed.

(** The observers of shard 0 are missing; the range over the two shards of
    [txsS3] visits shard 1 first. *)
Definition observersNoShard0 (shardID : Z) : Error + list NodeData :=
  if shardID =? 0 then inl (External "no observers") else inr [mkNodeData "observer1" 1].

(** X6, witness: the batch of shard 1 is posted and accepted, then the
    observers of shard 0 are missing. *)
Lemma SendMultipleTransactions_missing_observer_witness :
  validTxs hexCodec txsS3 <> [] /\
  map_to_list (getTxsByShardId hexCodec routeBySender (validTxs hexCodec txsS3))
    = [(1, [txShard1; txShard1])] ++ (0, [txShard0; txShard0]) :: [] /\
  Forall (fun entry => exists observers, observersNoShard0 entry.1 = inr observers)
    [(1, [txShard1; txShard1])] /\
  observersNoShard0 0 = inl (External "no observers") /\
  let r := sendTxsByShardId unit observersNoShard0 (postS3 "h0" "h1" "h2" "h3") 0
             [(1, [txShard1; txShard1])] tt in
  SendMultipleTransactions unit hexCodec routeBySender observersNoShard0
    (postS3 "h0" "h1" "h2" "h3") map_to_list txsS3 tt
  = (0, Some ErrMissingObserver, world r, trace r).
Proof.
  assert (H1 : validTxs hexCodec txsS3 <> []) by (vm_compute; discriminate).
  assert (H2 : map_to_list (getTxsByShardId hexCodec routeBySender (validTxs hexCodec txsS3))
               = [(1, [txShard1; txShard1])] ++ (0, [txShard0; txShard0]) :: [])
    by (vm_compute; reflexivity).
  assert (H3 : Forall (fun entry => exists observers, observersNoShard0 entry.1 = inr observers)
                 [(1, [txShard1; txShard1])]).
  { constructor; [|constructor]. eexists. vm_compute. reflexivity. }
  assert (H4 : observersNoShard0 0 = inl (External "no observers")) by reflexivity.
  split_and!; [exact H1|exact H2|exact H3|exact H4|].
  exact (ProcessRuns.SendMultipleTransactions_missing_observer unit hexCodec routeBySender
           observersNoShard0 (postS3 "h0" "h1" "h2" "h3") map_to_list txsS3
           [(1, [txShard1; txShard1])] 0 [txShard0; txShard0] [] (External "no observers") tt
           H1 H2 H3 H4).
Defined.

Example SendMultipleTransactions_missing_observer_run :
  SendMultipleTransactions unit hexCodec routeBySender observersNoShard0
    (postS3 "h0" "h1" "h2" "h3") map_to_list txsS3 tt
  = (0, Some ErrMissingObserver, tt,
     [mkExchange "observer1" MultipleTransactionsPath (Some (PostTxs [txShard1; txShard1]))
        (Some 200) None (txBody "" 2 [(0, "h2"); (1, "h3")] 0 "")]).
Proof. vm_compute. reflexivity. Qed.

(** X7, witness: scenario S3, with the range in the order of the map's
    list of entries. *)
Lemma SendMultipleTransactions_never_posts_again_witness :
  (forall m : gmap Z (list Transaction), map_to_list m ≡ₚ map_to_list m) /\
  ProcessRuns.neverPostedAgain
    (trace (SendMultipleTransactions unit hexCodec routeBySender observersS3
              (postS3 "h0" "h1" "h2" "h3") map_to_list txsS3 tt)).
Proof.
  assert (H : forall m : gmap Z (list Transaction), map_to_list m ≡ₚ map_to_list m)
    by (intros m; reflexivity).
  split; [exact H|].
  exact (ProcessRuns.SendMultipleTransactions_never_posts_again unit hexCodec routeBySender
           observersS3 (postS3 "h0" "h1" "h2" "h3") map_to_list H txsS3 tt).
Defined.

(** X9, witness: scenario S3; the batch of shard 0 was posted to
    [observer0]. *)
Lemma SendMultipleTransactions_posts_every_batch_witness :
  (forall m : gmap Z (list Transaction), map_to_list m ≡ₚ map_to_list m) /\
  (result (SendMultipleTransactions unit hexCodec routeBySender observersS3
             (postS3 "h0" "h1" "h2" "h3") map_to_list txsS3 tt)).2 = None /\
  getTxsByShardId hexCodec routeBySender (validTxs hexCodec txsS3) !! 0
    = Some [txShard0; txShard0] /\
  observersS3 0 = inr [mkNodeData "observer0" 0] /\
  answeredBy (postS3 "h0" "h1" "h2" "h3") tt
    (trace (SendMultipleTransactions unit hexCodec routeBySender observersS3
              (postS3 "h0" "h1" "h2" "h3") map_to_list txsS3 tt))
    (world (SendMultipleTransactions unit hexCodec routeBySender observersS3
              (postS3 "h0" "h1" "h2" "h3") map_to_list txsS3 tt)) /\
  exists ex,
    ex ∈ trace (SendMultipleTransactions unit hexCodec routeBySender observersS3
                  (postS3 "h0" "h1" "h2" "h3") map_to_list txsS3 tt) /\
    exAddress ex = "observer0" /\
    posted MultipleTransactionsPath (PostTxs [txShard0; txShard0]) ex.
Proof.
  assert (H : forall m : gmap Z (list Transaction), map_to_list m ≡ₚ map_to_list m)
    by (intros m; reflexivity).
  assert (H1 : (result (SendMultipleTransactions unit hexCodec routeBySender observersS3
                          (postS3 "h0" "h1" "h2" "h3") map_to_list txsS3 tt)).2 = None)
    by (vm_compute; reflexivity).
  assert (H2 : getTxsByShardId hexCodec routeBySender (validTxs hexCodec txsS3) !! 0
               = Some [txShard0; txShard0]) by (vm_compute; reflexivity).
  assert (H3 : observersS3 0 = inr [mkNodeData "observer0" 0]) by reflexivity.
  do 4 (split; [assumption|]).
  exact (ProcessCoverage.SendMultipleTransactions_posts_every_batch unit hexCodec routeBySender
           observersS3 (postS3 "h0" "h1" "h2" "h3") map_to_list H txsS3 tt 0
           [txShard0; txShard0] (mkNodeData "observer0" 0) [] H1 H2 H3).
Defined.

End LawsScenarios.

(** ** Scenarios for the laws of the vm-values handlers *)

Module VmValuesLawsScenarios.
Import Gin VmValues VmValuesScenarios.

Definition goodRequest : VmValueRequest := mkVmValueRequest "sc" "get" ["2d3132"; "33"].
Definition goodArgs : list (list byte) := [list_byte_of_string "-12"; list_byte_of_string "3"].

Definition textRequest : VmValueRequest := mkVmValueRequest "sc" "get" ["6162"].
Definition textArgs : list (list byte) := [list_byte_of_string "ab"].

Lemma keys_facade : keys !! "elrondProxyFacade" = Some (IsFacade echoFacade).
Proof. apply lookup_singleton_eq. Defined.

Lemma goodRequest_decodes : VmValuesLaws.decodeTo goodRequest.(Args) goodArgs.
Proof. repeat constructor. Defined.

Lemma textRequest_decodes : VmValuesLaws.decodeTo textRequest.(Args) textArgs.
Proof. repeat constructor. Defined.

(** X12, witness: the echo facade is called once, with the bytes of the two
    arguments. *)
Lemma vmValueFromAccount_calls_facade_once_witness :
  keys !! "elrondProxyFacade" = Some (IsFacade echoFacade) /\
  VmValuesLaws.decodeTo goodRequest.(Args) goodArgs /\
  exists data status err,
    vmValueFromAccount "invalid app context" quoted (mkContext keys (inr goodRequest)) "string"
    = Some (data, status, err, [mkFacadeCall "string" "sc" "get" goodArgs]) /\
    match echoFacade.(GetVmValue) "string" "sc" "get" goodArgs with
    | inl facadeErr => data = [] /\ status = StatusBadRequest /\ err = Some facadeErr
    | inr returnedData => data = returnedData /\ status = StatusOK /\ err = None
    end.
Proof.
  split_and!; [exact keys_facade|exact goodRequest_decodes|].
  exact (VmValuesLaws.vmValueFromAccount_calls_facade_once "invalid app context" quoted
           "string" echoFacade keys goodRequest goodArgs keys_facade goodRequest_decodes).
Defined.

(** X13, witness: the data [-123] of the echo facade, in hexadecimal. *)
Lemma GetVmValueAsHexBytes_round_trip_witness :
  keys !! "elrondProxyFacade" = Some (IsFacade echoFacade) /\
  VmValuesLaws.decodeTo goodRequest.(Args) goodArgs /\
  echoFacade.(GetVmValue) "hex" "sc" "get" goodArgs = inr (list_byte_of_string "-123") /\
  exists text,
    GetVmValueAsHexBytes "invalid app context" quoted (mkContext keys (inr goodRequest))
    = Responded StatusOK ("data", text) [mkFacadeCall "hex" "sc" "get" goodArgs] /\
    GoHex.DecodeString text = inr (list_byte_of_string "-123").
Proof.
  assert (H : echoFacade.(GetVmValue) "hex" "sc" "get" goodArgs
              = inr (list_byte_of_string "-123")) by reflexivity.
  split_and!; [exact keys_facade|exact goodRequest_decodes|exact H|].
  exact (VmValuesLaws.GetVmValueAsHexBytes_round_trip "invalid app context" quoted
           echoFacade keys goodRequest goodArgs (list_byte_of_string "-123")
           keys_facade goodRequest_decodes H).
Defined.

(** X14, witness: the data [ab] is no number. *)
Lemma GetVmValueAsBigInt_not_a_number_witness :
  keys !! "elrondProxyFacade" = Some (IsFacade echoFacade) /\
  VmValuesLaws.decodeTo textRequest.(Args) textArgs /\
  echoFacade.(GetVmValue) "int" "sc" "get" textArgs = inr (list_byte_of_string "ab") /\
  VmValuesLaws.asciiText (list_byte_of_string "ab") /\
  SetString (string_of_list_byte (list_byte_of_string "ab")) = None /\
  GetVmValueAsBigInt "invalid app context" quoted (mkContext keys (inr textRequest))
  = Responded StatusOK ("error", "value ab could not be converted to a big int")
      [mkFacadeCall "int" "sc" "get" textArgs].
Proof.
  assert (H : echoFacade.(GetVmValue) "int" "sc" "get" textArgs
              = inr (list_byte_of_string "ab")) by reflexivity.
  assert (Hnan : SetString (string_of_list_byte (list_byte_of_string "ab")) = None)
    by (vm_compute; reflexivity).
  assert (Hascii : VmValuesLaws.asciiText (list_byte_of_string "ab")).
  { repeat constructor. }
  split_and!; [exact keys_facade|exact textRequest_decodes|exact H|exact Hascii|exact Hnan|].
  exact (VmValuesLaws.GetVmValueAsBigInt_not_a_number "invalid app context" quoted
           echoFacade keys textRequest textArgs (list_byte_of_string "ab")
           keys_facade textRequest_decodes H Hascii Hnan).
Defined.

(** X15, witness: the data [-123] is the text of the integer -123. *)
Lemma GetVmValueAsBigInt_round_trip_witness :
  keys !! "elrondProxyFacade" = Some (IsFacade echoFacade) /\
  VmValuesLaws.decodeTo goodRequest.(Args) goodArgs /\
  echoFacade.(GetVmValue) "int" "sc" "get" goodArgs = inr (list_byte_of_string (pretty (-123))) /\
  GetVmValueAsBigInt "invalid app context" quoted (mkContext keys (inr goodRequest))
  = Responded StatusOK ("data", pretty (-123)) [mkFacadeCall "int" "sc" "get" goodArgs].
Proof.
  assert (H : echoFacade.(GetVmValue) "int" "sc" "get" goodArgs
              = inr (list_byte_of_string (pretty (-123)))) by (vm_compute; reflexivity).
  split_and!; [exact keys_facade|exact goodRequest_decodes|exact H|].
  exact (VmValuesLaws.GetVmValueAsBigInt_round_trip "invalid app context" quoted
           echoFacade keys goodRequest goodArgs (-123) keys_facade goodRequest_decodes H).
Defined.

End VmValuesLawsScenarios.

(** ** Scenarios for the lookups and for the account handlers *)

Module LookupsScenarios.
Import Process Lookups.

Definition observersGet : list NodeData :=
  [mkNodeData "address1" 0; mkNodeData "address2" 1; mkNodeData "address3" 1].

(** The first observer is down; the others answer with their own address. *)
Definition getTx (address path : string) (txResponse : string) (w : unit) :
  option Error * string * unit :=
  if String.eqb address "address1" then (Some (External "down"), txResponse, tt)
  else (None, address, tt).

Example GetTransaction_second_observer :
  GetTransaction unit string "" observersGet getTx "abcd" tt
  = (Some "address2", None, tt,
     [mkAsked "address1" "/transaction/abcd" "" None (Some (External "down")) "";
      mkAsked "address2" "/transaction/abcd" "" None None "address2"]).
Proof. vm_compute. reflexivity. Qed.

Example GetTransaction_no_observers :
  GetTransaction unit string "" [] getTx "abcd" tt = (None, None, tt, []).
Proof. reflexivity. Qed.

Definition metaObservers (shardID : Z) : Error + list NodeData :=
  if shardID =? MetachainShardId
  then inr [mkNodeData "meta1" MetachainShardId; mkNodeData "meta2" MetachainShardId]
  else inr [mkNodeData "address1" 0].

(** A client that decodes what it reads before it fails: the first observer
    leaves its nodes in the variable and fails, the second adds its own. *)
Definition getAuction (address path : string) (valStatsResponse : list string) (w : unit) :
  Z * option Error * list string * unit :=
  if String.eqb address "meta1"
  then (500, Some (External "broken reply"), valStatsResponse ++ ["node of meta1"], tt)
  else (200, None, valStatsResponse ++ ["node of meta2"], tt).

Example GetAuctionList_keeps_what_failed_calls_left :
  GetAuctionList unit (list string) (list string) [] id "/validator/auction" metaObservers
    getAuction tt
  = (Some ["node of meta1"; "node of meta2"], None, tt,
     [mkAsked "meta1" "/validator/auction" [] (Some 500) (Some (External "broken reply"))
        ["node of meta1"];
      mkAsked "meta2" "/validator/auction" ["node of meta1"] (Some 200) None
        ["node of meta1"; "node of meta2"]]).
Proof. vm_compute. reflexivity. Qed.

End LookupsScenarios.

Module AccountScenarios.
Import Gin AccountApi.

(** An account as a pair of its balance and its nonce. *)
Definition knownFacade : FacadeHandler (string * Z) unit :=
  mkFacade
    (fun address =>
       if String.eqb address "erd1known" then (Some ("100", 7), None)
       else if String.eqb address "erd1nil" then (None, None)
       else (None, Some "account not found"))
    (fun address => ([], None)).

Definition context (address : string) : Context (string * Z) unit :=
  mkContext _ _ {[ "elrondProxyFacade" := IsFacade knownFacade ]} [("address", address)].

Abbreviation balanceOf := (GetBalance (string * Z) unit string Z fst "invalid app context").
Abbreviation accountOf := (GetAccount (string * Z) unit string Z "invalid app context").
Abbreviation nonceOf := (GetNonce (string * Z) unit string Z snd "invalid app context").

Example GetBalance_known :
  balanceOf (context "erd1known")
  = Replied 200 "balance" (VBalance "100") [CallGetAccount "erd1known"].
Proof. vm_compute. reflexivity. Qed.

Example GetNonce_unknown :
  nonceOf (context "erd1other")
  = Replied 500 "error" (VError "account not found") [CallGetAccount "erd1other"].
Proof. vm_compute. reflexivity. Qed.

Example GetAccount_nil_account :
  accountOf (context "erd1nil") = Replied 200 "account" (VAccount None) [CallGetAccount "erd1nil"]
  /\ balanceOf (context "erd1nil") = Panics.
Proof. vm_compute. split; reflexivity. Qed.

End AccountScenarios.
